(** * backup.py: configuration loading, backup run and snapshot rotation

    A shallow embedding of [backup.py] (Python 2).  Python [str] values are
    Rocq strings, the attribute dictionary of a [BackupConfig] object is a
    finite map, exceptions are values of [Exn], and everything that touches
    the host (subprocesses, [os.path.exists], [open], [os.environ],
    [logging]) runs in a state-and-exception monad over an abstract host. *)

From Stdlib Require Import ZArith Ascii.
From stdpp Require Import gmap strings list pretty.

#[local] Set Warnings "-clear-no-such-hyp".

Local Open Scope Z_scope.

(** ** Python string primitives *)

Module Py.

Definition SP : ascii := "032"%char.
Definition LF : ascii := "010"%char.

(** [str.isspace] for one byte in the C locale. *)
Definition isspace (c : ascii) : bool :=
  let n := nat_of_ascii c in
  (Nat.eqb n 32 || (Nat.leb 9 n && Nat.leb n 13))%bool.

Definition isdigit (c : ascii) : bool :=
  let n := nat_of_ascii c in (Nat.leb 48 n && Nat.leb n 57)%bool.

Fixpoint lstrip (s : string) : string :=
  match s with
  | EmptyString => EmptyString
  | String c r => if isspace c then lstrip r else s
  end.

Fixpoint rstrip (s : string) : string :=
  match s with
  | EmptyString => EmptyString
  | String c r =>
      match rstrip r with
      | EmptyString => if isspace c then EmptyString else String c EmptyString
      | r' => String c r'
      end
  end.

(** [s.strip()] *)
Definition strip (s : string) : string := rstrip (lstrip s).

(** [c in s] for a one-character [c]. *)
Fixpoint contains (c : ascii) (s : string) : bool :=
  match s with
  | EmptyString => false
  | String a r => if decide (a = c) then true else contains c r
  end.

(** [s.startswith(c)] and [s.endswith(c)] for a one-character [c]. *)
Definition startswith (c : ascii) (s : string) : bool :=
  match s with
  | String a _ => bool_decide (a = c)
  | EmptyString => false
  end.

Fixpoint endswith (c : ascii) (s : string) : bool :=
  match s with
  | EmptyString => false
  | String a EmptyString => bool_decide (a = c)
  | String _ r => endswith c r
  end.

(** [s.split(sep)] for a one-character separator: never the empty list. *)
Fixpoint split (sep : ascii) (s : string) : list string :=
  match s with
  | EmptyString => [EmptyString]
  | String a r =>
      if decide (a = sep) then EmptyString :: split sep r
      else match split sep r with
           | h :: t => String a h :: t
           | [] => [String a EmptyString]
           end
  end.

(** [s.split(sep, 1)]: at most one cut, at the first separator. *)
Fixpoint split1 (sep : ascii) (s : string) : list string :=
  match s with
  | EmptyString => [EmptyString]
  | String a r =>
      if decide (a = sep) then [EmptyString; r]
      else match split1 sep r with
           | h :: t => String a h :: t
           | [] => [String a EmptyString]
           end
  end.

(** The lines a file object yields: each keeps its terminating newline, the
    last one may lack it, an empty file has none. *)
Fixpoint readlines (s : string) : list string :=
  match s with
  | EmptyString => []
  | String a r =>
      if decide (a = LF) then String a EmptyString :: readlines r
      else match readlines r with
           | h :: t => String a h :: t
           | [] => [String a EmptyString]
           end
  end.

(** Characters of a string, as one-character strings (iteration over a
    [str]). *)
Fixpoint chars (s : string) : list string :=
  match s with
  | EmptyString => []
  | String a r => String a EmptyString :: chars r
  end.

(** [int(s)] for a [str] in base 10: optional surrounding whitespace, an
    optional sign, at least one digit; anything else is a [ValueError]. *)
Fixpoint digits_value (acc : Z) (s : string) : option Z :=
  match s with
  | EmptyString => Some acc
  | String c r =>
      if isdigit c
      then digits_value (10 * acc + Z.of_nat (nat_of_ascii c - 48)) r
      else None
  end.

Definition unsigned_value (s : string) : option Z :=
  match s with
  | EmptyString => None
  | _ => digits_value 0 s
  end.

Definition int (s : string) : option Z :=
  match strip s with
  | String "+" r => unsigned_value r
  | String "-" r => Z.opp <$> unsigned_value r
  | t => unsigned_value t
  end.

(** [os.path.join(a, b)] of posixpath, two [str] arguments. *)
Definition path_join (a b : string) : string :=
  if startswith "/" b then b
  else if (bool_decide (a = EmptyString) || endswith "/" a)%bool then a +:+ b
  else a +:+ "/" +:+ b.

End Py.

(** ** Python values, exceptions and results *)

(** The two kinds of value an attribute of a [BackupConfig] object holds. *)
Inductive PyVal : Type :=
  | PStr (s : string)
  | PList (l : list string).

Global Instance PyVal_eq_dec : EqDecision PyVal.
Proof. solve_decision. Defined.

(** The exceptions the script can raise.  [ShellError] carries the fields its
    constructor stores. *)
Inductive Exn : Type :=
  | AssertionError (msg : option string)
  | AttributeError (name : string)
  | NameError (name : string)
  | UnboundLocalError (name : string)
  | ValueError (what : string)
  | KeyError (key : string)
  | IOError (filename : string)
  | ShellError (command : string) (cwd : option string) (returncode : Z)
               (stdout stderr : string).

Global Instance Exn_eq_dec : EqDecision Exn.
Proof. solve_decision. Defined.

Inductive Res (A : Type) : Type :=
  | Ok (a : A)
  | Raise (e : Exn).
Arguments Ok {A} a.
Arguments Raise {A} e.

Global Instance Res_ret : MRet Res := @Ok.
Global Instance Res_bind : MBind Res := λ A B f m,
  match m with
  | Ok a => f a
  | Raise e => Raise e
  end.

Definition is_ok {A} (r : Res A) : bool :=
  match r with Ok _ => true | Raise _ => false end.

(** [str(v)], as the [%s] conversion applies it.  A list prints as the
    [repr] of its elements. *)
Module Repr.

Definition DQ : ascii := "034"%char.
Definition SQ : ascii := "039"%char.
Definition BS : ascii := "092"%char.

Definition hex_digit (n : nat) : ascii :=
  ascii_of_nat (if Nat.ltb n 10 then 48 + n else 87 + n)%nat.

Definition escape (quote c : ascii) : string :=
  let n := nat_of_ascii c in
  if (bool_decide (c = quote) || bool_decide (c = BS))%bool
  then String BS (String c EmptyString)
  else if Nat.eqb n 9 then String BS "t"
  else if Nat.eqb n 10 then String BS "n"
  else if Nat.eqb n 13 then String BS "r"
  else if (Nat.ltb n 32 || Nat.leb 127 n)%bool
  then String BS (String "x" (String (hex_digit (n / 16))
                                (String (hex_digit (n mod 16)) EmptyString)))
  else String c EmptyString.

Fixpoint escape_all (quote : ascii) (s : string) : string :=
  match s with
  | EmptyString => EmptyString
  | String c r => escape quote c +:+ escape_all quote r
  end.

Definition repr_str (s : string) : string :=
  let quote :=
    if (Py.contains SQ s && negb (Py.contains DQ s))%bool then DQ else SQ in
  String quote (escape_all quote s +:+ String quote EmptyString).

Fixpoint join_comma (l : list string) : string :=
  match l with
  | [] => EmptyString
  | [x] => x
  | x :: r => x +:+ ", " +:+ join_comma r
  end.

Definition repr_list (l : list string) : string :=
  "[" +:+ join_comma (repr_str <$> l) +:+ "]".

End Repr.

Definition py_str (v : PyVal) : string :=
  match v with
  | PStr s => s
  | PList l => Repr.repr_list l
  end.

(** ** BackupConfig *)

(** The instance dictionary [self.__dict__]: every attribute of the
    configuration object lives here, the path list under ["FILEPATHS"]. *)
Abbreviation BackupConfig := (gmap string PyVal).

Definition is_comment_or_blank (line : string) : bool :=
  match line with
  | EmptyString => true
  | String c _ => bool_decide (c = "#"%char)
  end.

(** One iteration of the loop of [BackupConfig.Process]. *)
Definition Process_line (self : BackupConfig) (raw : string) : Res BackupConfig :=
  let line := Py.strip raw in
  if is_comment_or_blank line then Ok self
  else if Py.contains Py.SP line then
    match Py.split1 Py.SP line with
    | [key; value] => Ok (<[key := PStr value]> self)
    | _ => Raise (ValueError "unpack")
    end
  else
    match self !! "FILEPATHS" with
    | Some (PList paths) => Ok (<["FILEPATHS" := PList (paths ++ [line])]> self)
    | Some (PStr _) => Raise (AttributeError "append")
    | None => Raise (AttributeError "FILEPATHS")
    end.

Fixpoint Process_lines (self : BackupConfig) (lines : list string)
  : Res BackupConfig :=
  match lines with
  | [] => Ok self
  | raw :: rest => self' ← Process_line self raw; Process_lines self' rest
  end.

(** [self.FILEPATHS = []; self.Process(filename)] on the text of the file. *)
Definition load (content : string) : Res BackupConfig :=
  Process_lines {["FILEPATHS" := PList []]} (Py.readlines content).

(** ** The host: subprocesses, files, environment, log *)

(** What [Shell] learns of a finished subprocess. *)
Record Completed : Type := MkCompleted {
  returncode : Z;
  stdout : string;
  stderr : string;
}.

(** The operating system as the script sees it.  [popen cmd] runs
    [subprocess.Popen(cmd, shell=True)] to completion; [open_append f] is
    [open(f, 'a')], which creates the file where it can and gives [None]
    where the file cannot be opened. *)
Class Host (W : Type) : Type := {
  popen : string → W → Completed * W;
  path_exists : string → W → bool;
  read_file : string → W → option string;
  getenv : string → W → option string;
  open_append : string → W → option W;
}.

Inductive Level : Type := INFO | ERROR.

Inductive Event : Type :=
  | Spawn (cmd : string)
  | LogOpen (filename : string)
  | LogRecord (level : Level) (msg : string).

Global Instance Level_eq_dec : EqDecision Level.
Proof. solve_decision. Defined.
Global Instance Event_eq_dec : EqDecision Event.
Proof. solve_decision. Defined.

(** The state a run threads: the host and the journal of what the script did
    to it, oldest event first. *)
Record State (W : Type) : Type := MkState {
  world : W;
  journal : list Event;
}.
Arguments MkState {W} world journal.
Arguments world {W} s.
Arguments journal {W} s.

Definition M (W A : Type) : Type := State W → Res A * State W.

Global Instance M_ret {W} : MRet (M W) := λ A a st, (Ok a, st).
Global Instance M_bind {W} : MBind (M W) := λ A B f m st,
  match m st with
  | (Ok a, st') => f a st'
  | (Raise e, st') => (Raise e, st')
  end.

Section Script.
Context {W : Type} `{!Host W}.

Definition raise {A} (e : Exn) : M W A := λ st, (Raise e, st).

Definition lift {A} (r : Res A) : M W A := λ st, (r, st).

Definition emit (ev : Event) : M W unit := λ st,
  (Ok tt, MkState (world st) (journal st ++ [ev])).

(** [try: body  except <matching>: handler]; [handler e = None] when no
    [except] clause matches [e]. *)
Definition try_except {A} (body : M W A) (handler : Exn → option (M W A))
  : M W A := λ st,
  match body st with
  | (Ok a, st') => (Ok a, st')
  | (Raise e, st') =>
      match handler e with
      | Some h => h st'
      | None => (Raise e, st')
      end
  end.

(** [try: body  finally: cleanup] *)
Definition try_finally {A} (body : M W A) (cleanup : M W unit) : M W A := λ st,
  match body st with
  | (r, st') =>
      match cleanup st' with
      | (Ok _, st'') => (r, st'')
      | (Raise e, st'') => (Raise e, st'')
      end
  end.

Fixpoint for_each {A} (l : list A) (body : A → M W unit) : M W unit :=
  match l with
  | [] => mret tt
  | x :: rest => body x ;; for_each rest body
  end.

(** A step that only appends to the journal. *)
Definition appends {A} (m : M W A) : Prop :=
  ∀ st, ∃ events, journal (m st).2 = journal st ++ events.

(** Attribute access [cfg.name]. *)
Definition getattr (cfg : BackupConfig) (name : string) : M W PyVal :=
  match cfg !! name with
  | Some v => mret v
  | None => raise (AttributeError name)
  end.

(** [os.path.join(a, b)] when [a] comes from the configuration: a list has
    no [endswith]. *)
Definition os_path_join (a : PyVal) (b : string) : M W string :=
  if Py.startswith "/" b then mret b
  else match a with
       | PStr a => mret (Py.path_join a b)
       | PList _ => raise (AttributeError "endswith")
       end.

Definition os_path_exists (path : string) : M W bool := λ st,
  (Ok (path_exists path (world st)), st).

Definition logging_info (msg : string) : M W unit := emit (LogRecord INFO msg).
Definition logging_exception (msg : string) : M W unit :=
  emit (LogRecord ERROR msg).

(** [Shell(cmd)]: run the command, raise [ShellError] on a non-zero exit. *)
Definition Shell (cmd : string) : M W unit := λ st,
  let '(proc, w) := popen cmd (world st) in
  let st' := MkState w (journal st ++ [Spawn cmd]) in
  if decide (returncode proc = 0) then (Ok tt, st')
  else (Raise (ShellError cmd None (returncode proc) (stdout proc) (stderr proc)),
        st').

(** *** RunBackup *)

(** Pre mount external filesystem if needed.  The first [try] leaves the
    local [premount] unbound when the attribute is missing; the second one
    reads it. *)
Definition premount_step (cfg : BackupConfig) : M W unit :=
  let premount := cfg !! "PRE_MOUNT" in
  try_except
    (match premount with
     | Some dev => Shell ("mount " +:+ py_str dev)
     | None => raise (UnboundLocalError "premount")
     end)
    (λ e, match e with
          | ShellError _ _ rc _ _ =>
              Some (if decide (rc ≠ 32)
                    then logging_exception "Pre Mount Failed" ;; raise e
                    else mret tt)
          | _ => None
          end).

Definition encfs_command (password current decrypted : string) : string :=
  "echo '" +:+ password +:+ "' | encfs -S " +:+ current +:+ " " +:+ decrypted.

(** Mount an encrypted filesystem (encfs) on top of the backup mount point. *)
Definition encfs_step (cfg : BackupConfig) : M W unit :=
  root ← getattr cfg "ENCRYPTED_MOUNTPOINT";
  current ← os_path_join root "current";
  password ← getattr cfg "ENCFS_PASSWORD";
  decrypted ← getattr cfg "DECRYPTED_MOUNTPOINT";
  Shell (encfs_command (py_str password) current (py_str decrypted)).

Definition rsync_command (filepath flags decrypted : string) : string :=
  "rsync " +:+ filepath +:+ " " +:+ flags +:+ " " +:+ decrypted.

(** What [for filepath in v] iterates over. *)
Definition iterate (v : PyVal) : list string :=
  match v with
  | PList l => l
  | PStr s => Py.chars s
  end.

Definition rsync_one (cfg : BackupConfig) (filepath : string) : M W unit :=
  flags ← getattr cfg "RSYNC_FLAGS";
  decrypted ← getattr cfg "DECRYPTED_MOUNTPOINT";
  Shell (rsync_command filepath (py_str flags) (py_str decrypted)).

(** Rsync files over to the decrypted mount point. *)
Definition rsync_step (cfg : BackupConfig) : M W unit :=
  filepaths ← getattr cfg "FILEPATHS";
  for_each (iterate filepaths) (rsync_one cfg).

(** [UNMOUNT_AT_END] not defined defaults to [True]. *)
Definition should_unmount (cfg : BackupConfig) : bool :=
  match cfg !! "UNMOUNT_AT_END" with
  | Some v => bool_decide (v = PStr "True")
  | None => true
  end.

Definition fusermount_command (decrypted : string) : string :=
  "fusermount -u " +:+ decrypted.

(** Optionally unmount filesystem. *)
Definition unmount_step (cfg : BackupConfig) : M W unit :=
  if should_unmount cfg then
    decrypted ← getattr cfg "DECRYPTED_MOUNTPOINT";
    Shell (fusermount_command (py_str decrypted))
  else mret tt.

Definition RunBackup (cfg : BackupConfig) : M W unit :=
  premount_step cfg ;;
  encfs_step cfg ;;
  rsync_step cfg ;;
  unmount_step cfg.

(** *** MakeSnapshot *)

(** The loop over [cfg.SNAPSHOTS.split(',')]: [total] is [total_snapshots]. *)
Fixpoint scan_snapshots (frequency : string) (pairs : list string) (total : Z)
  : Res Z :=
  match pairs with
  | [] => Ok total
  | item :: rest =>
      match Py.split "=" item with
      | [key; value] =>
          if decide (key = frequency) then
            match Py.int value with
            | Some n => scan_snapshots frequency rest n
            | None => Raise (ValueError "int")
            end
          else scan_snapshots frequency rest total
      | _ => Raise (ValueError "unpack")
      end
  end.

(** [cfg.SNAPSHOTS.split(',')] *)
Definition snapshots_pairs (cfg : BackupConfig) : M W (list string) :=
  table ← getattr cfg "SNAPSHOTS";
  match table with
  | PStr s => mret (Py.split "," s)
  | PList _ => raise (AttributeError "split")
  end.

(** The name [frequency_type] of the assertion message: the module defines
    no such global and it is not a builtin. *)
Definition frequency_type : Res string := Raise (NameError "frequency_type").

(** [assert cond] and [assert cond, msg]: the message is evaluated only when
    [cond] is false. *)
Definition py_assert (cond : bool) (msg : option (Res string)) : M W unit :=
  if cond then mret tt
  else match msg with
       | None => raise (AssertionError None)
       | Some (Ok m) => raise (AssertionError (Some m))
       | Some (Raise e) => raise e
       end.

(** [range(start, stop, -1)], as far as the list fits the interpreter's
    memory. *)
Definition range_down (start stop : Z) : list Z :=
  (λ k : nat, start - Z.of_nat k) <$> seq 0 (Z.to_nat (start - stop)).

(** ["%s.%s" % (frequency, n)] *)
Definition generation (frequency : string) (n : Z) : string :=
  frequency +:+ "." +:+ pretty n.

Definition rm_command (path : string) : string := "rm -rf " +:+ path.
Definition mv_command (src dst : string) : string :=
  "mv " +:+ src +:+ " " +:+ dst.
Definition cp_command (src dst : string) : string :=
  "cp -al " +:+ src +:+ " " +:+ dst.

(** One iteration of the shifting loop, for generation [ii]. *)
Definition shift_one (cfg : BackupConfig) (frequency : string) (ii : Z)
  : M W unit :=
  root ← getattr cfg "ENCRYPTED_MOUNTPOINT";
  source_backup ← os_path_join root (generation frequency (ii - 1));
  root ← getattr cfg "ENCRYPTED_MOUNTPOINT";
  dest_backup ← os_path_join root (generation frequency ii);
  present ← os_path_exists source_backup;
  if (present : bool) then Shell (mv_command source_backup dest_backup) else mret tt.

Definition MakeSnapshot (cfg : BackupConfig) (frequency : string) : M W unit :=
  pairs ← snapshots_pairs cfg;
  total_snapshots ← lift (scan_snapshots frequency pairs 0);
  py_assert (bool_decide (total_snapshots > 0))
    (Some (name ← frequency_type;
           Ok (name +:+ " snapshot requested, 0 copies in .backuprc"))) ;;
  root ← getattr cfg "ENCRYPTED_MOUNTPOINT";
  backup_to_delete ← os_path_join root (generation frequency total_snapshots);
  Shell (rm_command backup_to_delete) ;;
  for_each (range_down total_snapshots 1) (shift_one cfg frequency) ;;
  root ← getattr cfg "ENCRYPTED_MOUNTPOINT";
  current ← os_path_join root "current";
  root ← getattr cfg "ENCRYPTED_MOUNTPOINT";
  dest_backup ← os_path_join root (frequency +:+ ".1");
  Shell (cp_command current dest_backup).

(** *** Module level *)

(** [os.path.join(os.environ['HOME'], '.backuprc')] *)
Definition BACKUP_RC : M W string := λ st,
  match getenv "HOME" (world st) with
  | Some home => (Ok (Py.path_join home ".backuprc"), st)
  | None => (Raise (KeyError "HOME"), st)
  end.

(** The text [open(filename)] gives access to. *)
Definition open_text (filename : string) : M W string := λ st,
  match read_file filename (world st) with
  | Some content => (Ok content, st)
  | None => (Raise (IOError filename), st)
  end.

(** [BackupConfig(filename)] *)
Definition BackupConfig_init (filename : string) : M W BackupConfig :=
  present ← os_path_exists filename;
  py_assert present None ;;
  content ← open_text filename;
  lift (load content).

(** [logging.FileHandler(filename, 'a')]: the handler opens its file when
    it is made, and the [IOError] of a file that cannot be opened is not
    caught. *)
Definition FileHandler (filename : string) : M W unit := λ st,
  match open_append filename (world st) with
  | Some w => (Ok tt, MkState w (journal st ++ [LogOpen filename]))
  | None => (Raise (IOError filename), st)
  end.

(** [logging.basicConfig(filename=cfg.LOG_FILE, ...)]: the root logger has
    no handler yet, so a file handler is made for it. *)
Definition logging_basicConfig (cfg : BackupConfig) : M W unit :=
  log_file ← getattr cfg "LOG_FILE";
  match log_file with
  | PStr f => FileHandler f
  | PList _ => raise (AttributeError "startswith")
  end.

(** [try: info(start); body  except Exception: exception(..); raise
     finally: info(finish)] *)
Definition logged (start finish : string) (body : M W unit) : M W unit :=
  try_finally
    (try_except (logging_info start ;; body)
       (λ e, Some (logging_exception "Unhandled exception" ;; raise e)))
    (logging_info finish).

Definition backup_phase (cfg : BackupConfig) : M W unit :=
  logged "Start Backup" "End Backup" (RunBackup cfg).

Definition snapshot_phase (cfg : BackupConfig) (arg : string) : M W unit :=
  logged ("Start " +:+ arg +:+ " Snapshot") ("End " +:+ arg +:+ " Snapshot")
    (MakeSnapshot cfg arg).

(** The two statements after the configuration is loaded; [args] is
    [sys.argv[1:]]. *)
Definition dispatch (cfg : BackupConfig) (args : list string) : M W unit :=
  (if bool_decide ("snapshot" ∈ args) then backup_phase cfg else mret tt) ;;
  for_each args (λ arg,
    if decide (arg ≠ "snapshot") then snapshot_phase cfg arg else mret tt).

(** The whole script, run with [sys.argv = argv]. *)
Definition main (argv : list string) : M W unit :=
  rc ← BACKUP_RC;
  cfg ← BackupConfig_init rc;
  logging_basicConfig cfg ;;
  dispatch cfg (tail argv).

End Script.

(** ** What the script relies on from [rm], [mv] and [cp]

    [entry dir name w] is what directory [dir] holds under [name] in host
    [w], with contents of type [D].  The laws speak of commands that exit
    with status 0 only, of paths the shell passes on as one word, and of
    names inside one directory. *)

Fixpoint all_chars (ok : ascii → bool) (s : string) : bool :=
  match s with
  | EmptyString => true
  | String c r => ok c && all_chars ok r
  end.

Definition is_alnum (c : ascii) : bool :=
  let n := nat_of_ascii c in
  ((Nat.leb 48 n && Nat.leb n 57) || (Nat.leb 65 n && Nat.leb n 90)
   || (Nat.leb 97 n && Nat.leb n 122))%bool.

Definition name_char (c : ascii) : bool :=
  (is_alnum c || bool_decide (c = "."%char) || bool_decide (c = "_"%char)
   || bool_decide (c = "-"%char))%bool.

Definition path_char (c : ascii) : bool :=
  (name_char c || bool_decide (c = "/"%char))%bool.

(** A file name: letters, digits, dot, underscore and dash. *)
Definition simple_name (n : string) : Prop :=
  n ≠ EmptyString ∧ all_chars name_char n = true.

(** A path that is one shell word and no option. *)
Definition plain_path (p : string) : Prop :=
  p ≠ EmptyString ∧ Py.startswith "-" p = false ∧ all_chars path_char p = true.

Global Instance simple_name_dec n : Decision (simple_name n).
Proof. unfold simple_name. apply _. Defined.
Global Instance plain_path_dec p : Decision (plain_path p).
Proof. unfold plain_path. apply _. Defined.


Class PosixTools (W D : Type) `{!Host W} : Type := {
  entry : string → string → W → option D;
  exists_entry dir n w :
    plain_path dir → simple_name n →
    path_exists (Py.path_join dir n) w = bool_decide (is_Some (entry dir n w));
  rm_rf_done dir n w :
    plain_path dir → simple_name n →
    let '(proc, w') := popen (rm_command (Py.path_join dir n)) w in
    returncode proc = 0 →
    entry dir n w' = None ∧
    ∀ m, simple_name m → m ≠ n → entry dir m w' = entry dir m w;
  mv_done dir s d w :
    plain_path dir → simple_name s → simple_name d →
    let '(proc, w') :=
      popen (mv_command (Py.path_join dir s) (Py.path_join dir d)) w in
    returncode proc = 0 → entry dir d w = None →
    entry dir d w' = entry dir s w ∧ entry dir s w' = None ∧
    ∀ m, simple_name m → m ≠ s → m ≠ d → entry dir m w' = entry dir m w;
  cp_al_done dir s d w :
    plain_path dir → simple_name s → simple_name d →
    let '(proc, w') :=
      popen (cp_command (Py.path_join dir s) (Py.path_join dir d)) w in
    returncode proc = 0 → entry dir d w = None →
    is_Some (entry dir s w) ∧ entry dir d w' = entry dir s w ∧
    ∀ m, simple_name m → m ≠ d → entry dir m w' = entry dir m w;
}.

(** The [mv] commands the shifting loop issues for the generations [l] when
    it starts in host [w]: one for every generation whose predecessor is
    there. *)
Definition shift_events {W D : Type} `{!Host W} `{!PosixTools W D}
    (dir frequency : string) (w : W) (l : list Z) : list Event :=
  ii ← l;
  match entry dir (generation frequency (ii - 1)) w with
  | Some _ => [Spawn (mv_command
                        (Py.path_join dir (generation frequency (ii - 1)))
                        (Py.path_join dir (generation frequency ii)))]
  | None => []
  end.



(** ** A simulated host

    Files and directories are kept by path; [rm -rf], [mv] and [cp -al] act
    on them, the last two refusing a destination that exists; every other
    command only exits with the status [exit_status] gives it. *)
Module Sim.

Inductive Node : Type :=
  | File (content : string)
  | Dir (tag : string).

Record World : Type := MkWorld {
  nodes : gmap string Node;
  exit_status : string → Z;
  env : gmap string string;
}.

Fixpoint strip_prefix (p s : string) : option string :=
  match p, s with
  | EmptyString, _ => Some s
  | String a p', String b s' =>
      if decide (a = b) then strip_prefix p' s' else None
  | String _ _, EmptyString => None
  end.

Definition exited (status : Z) : Completed :=
  MkCompleted status EmptyString EmptyString.

Definition with_nodes (w : World) (ns : gmap string Node) : World :=
  MkWorld ns (exit_status w) (env w).

Definition two_paths (rest : string) : option (string * string) :=
  match Py.split1 Py.SP rest with
  | [s; d] => Some (s, d)
  | _ => None
  end.

Definition run (cmd : string) (w : World) : Completed * World :=
  match strip_prefix "rm -rf " cmd with
  | Some p => (exited 0, with_nodes w (delete p (nodes w)))
  | None =>
  match strip_prefix "mv " cmd ≫= two_paths with
  | Some (s, d) =>
      match nodes w !! s, nodes w !! d with
      | Some t, None =>
          (exited 0, with_nodes w (<[d := t]> (delete s (nodes w))))
      | _, _ => (exited 1, w)
      end
  | None =>
  match strip_prefix "cp -al " cmd ≫= two_paths with
  | Some (s, d) =>
      match nodes w !! s, nodes w !! d with
      | Some t, None => (exited 0, with_nodes w (<[d := t]> (nodes w)))
      | _, _ => (exited 1, w)
      end
  | None => (exited (exit_status w cmd), w)
  end end end.

Definition read (p : string) (w : World) : option string :=
  match nodes w !! p with
  | Some (File content) => Some content
  | _ => None
  end.

(** Opening for appending: a directory cannot be opened, a file that is
    not there is created empty. *)
Definition append_to (p : string) (w : World) : option World :=
  match nodes w !! p with
  | Some (Dir _) => None
  | Some (File _) => Some w
  | None => Some (with_nodes w (<[p := File EmptyString]> (nodes w)))
  end.

Global Instance host : Host World := {|
  popen := run;
  path_exists p w := bool_decide (is_Some (nodes w !! p));
  read_file := read;
  getenv k w := env w !! k;
  open_append := append_to;
|}.

(** What directory [dir] holds under [n]. *)
Definition entry_at (dir n : string) (w : World) : option Node :=
  nodes w !! Py.path_join dir n.

Definition start (w : World) : State World := MkState w [].

End Sim.

(** ** The configuration format, as the specification words it

    After trimming: an empty line or one starting with [#] is skipped, a line
    containing a space is a key and a value cut at the first space, any other
    line is a path entry. *)

Inductive Directive : Type :=
  | Skipped
  | KeyValue (key value : string)
  | PathEntry (path : string).

(** Cut [s] at the first occurrence of [c]. *)
Fixpoint cut (c : ascii) (s : string) : option (string * string) :=
  match s with
  | EmptyString => None
  | String a r =>
      if decide (a = c) then Some (EmptyString, r)
      else '(k, v) ← cut c r; Some (String a k, v)
  end.

Definition directive_of (raw : string) : Directive :=
  let line := Py.strip raw in
  if is_comment_or_blank line then Skipped
  else match cut Py.SP line with
       | Some (k, v) => KeyValue k v
       | None => PathEntry line
       end.

Definition directives (content : string) : list Directive :=
  directive_of <$> Py.readlines content.

Fixpoint path_entries (ds : list Directive) : list string :=
  match ds with
  | [] => []
  | PathEntry p :: r => p :: path_entries r
  | _ :: r => path_entries r
  end.

Fixpoint key_values (ds : list Directive) : list (string * string) :=
  match ds with
  | [] => []
  | KeyValue k v :: r => (k, v) :: key_values r
  | _ :: r => key_values r
  end.

(** The value of the last pair with key [k]. *)
Fixpoint last_value (k : string) (kvs : list (string * string)) : option string :=
  match kvs with
  | [] => None
  | (k', v) :: r =>
      match last_value k r with
      | Some v' => Some v'
      | None => if decide (k' = k) then Some v else None
      end
  end.

(** What the specification promises of a loaded file: the path list holds
    the path lines in file order, every other attribute is the value of the
    last line with that key, and distinct keys give as many attributes as
    there are key/value lines (next to the path list). *)
Definition loads_as_specified (content : string) : Prop :=
  let ds := directives content in
  ∃ cfg : BackupConfig,
    load content = Ok cfg ∧
    cfg !! "FILEPATHS" = Some (PList (path_entries ds)) ∧
    (∀ k, k ≠ "FILEPATHS" → cfg !! k = PStr <$> last_value k (key_values ds)) ∧
    (NoDup (key_values ds).*1 →
     size (delete "FILEPATHS" cfg) = length (key_values ds)).

(** A path line somewhere after a key/value line whose key is [FILEPATHS]. *)
Fixpoint path_after_FILEPATHS (ds : list Directive) : bool :=
  match ds with
  | [] => false
  | KeyValue k _ :: r =>
      if decide (k = "FILEPATHS")
      then bool_decide (path_entries r ≠ [])
      else path_after_FILEPATHS r
  | _ :: r => path_after_FILEPATHS r
  end.

(** The text of a file with the given lines. *)
Fixpoint text (lines : list string) : string :=
  match lines with
  | [] => EmptyString
  | l :: r => l +:+ String Py.LF (text r)
  end.

(** ** The order of phases, as the specification words it *)

Inductive Phase : Type :=
  | Backup
  | Snapshot (frequency : string).

(** The sync phase first if its token occurs anywhere, then one rotation per
    other token, in argument order. *)
Definition plan (args : list string) : list Phase :=
  (if bool_decide ("snapshot" ∈ args) then [Backup] else [])
  ++ (Snapshot <$> filter (λ arg, arg ≠ "snapshot") args).

Section Plan.
Context {W : Type} `{!Host W}.

Definition run_phase (cfg : BackupConfig) (ph : Phase) : M W unit :=
  match ph with
  | Backup => backup_phase cfg
  | Snapshot frequency => snapshot_phase cfg frequency
  end.

(** Run the phases in order; the first one that raises ends the run. *)
Fixpoint run_plan (cfg : BackupConfig) (phases : list Phase) (st : State W)
  : Res unit * State W :=
  match phases with
  | [] => (Ok tt, st)
  | ph :: rest =>
      match run_phase cfg ph st with
      | (Ok _, st') => run_plan cfg rest st'
      | (Raise e, st') => (Raise e, st')
      end
  end.

(** The host after the commands [cmds] ran in order and each exited with
    status 0; [None] if one of them did not. *)
Fixpoint all_succeed (cmds : list string) (w : W) : option W :=
  match cmds with
  | [] => Some w
  | cmd :: rest =>
      let '(proc, w') := popen cmd w in
      if decide (returncode proc = 0) then all_succeed rest w' else None
  end.

End Plan.

(** ** A sample installation *)

Module Example.

Definition rc_lines : list string :=
  ["# backup settings";
   "LOG_FILE /var/log/backup.log";
   "ENCRYPTED_MOUNTPOINT /enc";
   "DECRYPTED_MOUNTPOINT /dec";
   "ENCFS_PASSWORD secret";
   "RSYNC_FLAGS -a";
   "SNAPSHOTS hourly=2,daily=3";
   "PRE_MOUNT /dev/sdb1";
   "/srv/data/";
   "/etc/fstab";
   "/home/greg/"].

Definition cfg : BackupConfig :=
  match load (text rc_lines) with
  | Ok c => c
  | Raise _ => ∅
  end.

Definition all_fine : string → Z := λ _, 0.

(** Every command exits with 0 but [cmd], which exits with [status]. *)
Definition failing (cmd : string) (status : Z) : string → Z :=
  λ c, if decide (c = cmd) then status else 0.

Definition host (status : string → Z) : Sim.World :=
  Sim.MkWorld
    (list_to_map [("/home/greg/.backuprc", Sim.File (text rc_lines));
                  ("/enc/current", Sim.Dir "today");
                  ("/enc/daily.1", Sim.Dir "monday");
                  ("/enc/daily.2", Sim.Dir "sunday")])
    status
    {["HOME" := "/home/greg"]}.

End Example.

(** ** A host whose shell expands its words

    The simulated host with a shell that, as [sh] does before it runs a
    command, reads a word starting with [~/] as a path below the home
    directory [home] and drops the single quotes of a word, and with [mv]
    and [cp -al] putting their source into a destination that is a
    directory.  [os.path.exists] takes a path as it is written. *)
Module HomeShell.

(** Quote removal. *)
Fixpoint unquote (word : string) : string :=
  match word with
  | EmptyString => EmptyString
  | String c r => if decide (c = "'"%char) then unquote r else String c (unquote r)
  end.

(** Tilde expansion, then quote removal. *)
Definition expand (home word : string) : string :=
  unquote match Sim.strip_prefix "~/" word with
          | Some rest => home +:+ "/" +:+ rest
          | None => word
          end.

(** The part of a path after its last slash. *)
Fixpoint basename (p : string) : string :=
  match p with
  | EmptyString => EmptyString
  | String c r =>
      if Py.contains "/" r then basename r
      else if decide (c = "/"%char) then r else p
  end.

(** Where [s] lands when it is moved or copied to [d]: at [d] if nothing is
    there, inside [d] under its own name if [d] is a directory. *)
Definition landing (s d : string) (w : Sim.World) : option string :=
  match Sim.nodes w !! d with
  | None => Some d
  | Some (Sim.Dir _) =>
      let inner := d +:+ "/" +:+ basename s in
      match Sim.nodes w !! inner with
      | None => Some inner
      | Some _ => None
      end
  | Some (Sim.File _) => None
  end.

Definition run (home cmd : string) (w : Sim.World) : Completed * Sim.World :=
  match Sim.strip_prefix "rm -rf " cmd with
  | Some p =>
      (Sim.exited 0, Sim.with_nodes w (delete (expand home p) (Sim.nodes w)))
  | None =>
  match Sim.strip_prefix "mv " cmd ≫= Sim.two_paths with
  | Some (s, d) =>
      let s := expand home s in
      match Sim.nodes w !! s, landing s (expand home d) w with
      | Some t, Some d' =>
          (Sim.exited 0, Sim.with_nodes w (<[d' := t]> (delete s (Sim.nodes w))))
      | _, _ => (Sim.exited 1, w)
      end
  | None =>
  match Sim.strip_prefix "cp -al " cmd ≫= Sim.two_paths with
  | Some (s, d) =>
      let s := expand home s in
      match Sim.nodes w !! s, landing s (expand home d) w with
      | Some t, Some d' =>
          (Sim.exited 0, Sim.with_nodes w (<[d' := t]> (Sim.nodes w)))
      | _, _ => (Sim.exited 1, w)
      end
  | None => (Sim.exited (Sim.exit_status w cmd), w)
  end end end.

Definition host (home : string) : Host Sim.World := {|
  popen := run home;
  path_exists p w := bool_decide (is_Some (Sim.nodes w !! p));
  read_file := Sim.read;
  getenv k w := Sim.env w !! k;
  open_append := Sim.append_to;
|}.

(** What the shell finds under the name [n] of directory [dir]. *)
Definition entry_at (home dir n : string) (w : Sim.World) : option Sim.Node :=
  Sim.nodes w !! expand home (Py.path_join dir n).

(** An installation below the home directory, after a first rotation. *)
Definition rc_lines : list string :=
  ["ENCRYPTED_MOUNTPOINT ~/enc"; "SNAPSHOTS daily=2"].

Definition cfg : BackupConfig :=
  match load (text rc_lines) with
  | Ok c => c
  | Raise _ => ∅
  end.

Definition world : Sim.World :=
  Sim.MkWorld
    (list_to_map [("/home/greg/enc/current", Sim.Dir "today");
                  ("/home/greg/enc/daily.1", Sim.Dir "monday")])
    (λ _, 0)
    {["HOME" := "/home/greg"]}.




End HomeShell.


(** ** ShellError: how the exception prints *)

Module ShellErrorText.

Definition CR : ascii := "013"%char.

(** [s.splitlines()] for a [str]: a line ends at a line feed, a carriage
    return, or the two in that order; no line follows the last break. *)
Fixpoint splitlines (s : string) : list string :=
  match s with
  | EmptyString => []
  | String c r =>
      if decide (c = Py.LF) then EmptyString :: splitlines r
      else if decide (c = CR) then
        match r with
        | String c' r' =>
            if decide (c' = Py.LF) then EmptyString :: splitlines r'
            else EmptyString :: splitlines r
        | EmptyString => [EmptyString]
        end
      else match splitlines r with
           | h :: t => String c h :: t
           | [] => [String c EmptyString]
           end
  end.

(** [" " * n] *)
Definition spaces (n : Z) : string :=
  Nat.iter (Z.to_nat n) (String Py.SP) EmptyString.

(** The loop of [PrintWithPrefix]: [out] after the lines [lines]. *)
Fixpoint PrintWithPrefix_loop (to_print : string) (prefix_len : Z)
    (lines : list string) (out : string) : string :=
  match lines with
  | [] => out
  | _ :: rest =>
      PrintWithPrefix_loop to_print prefix_len rest
        (out +:+ spaces prefix_len +:+ to_print)
  end.

(** [self.PrintWithPrefix(to_print, prefix_len)] *)
Definition PrintWithPrefix (to_print : string) (prefix_len : Z) : string :=
  PrintWithPrefix_loop to_print prefix_len (splitlines to_print) EmptyString.

(** [self.stdout.read()]: the captured output is a [str], which has no
    [read]. *)
Definition stdout_read (stdout : string) : Res string :=
  Raise (AttributeError "read").

(** [str(e)] for a [ShellError] with the given fields. *)
Definition to_str (returncode : Z) (stdout stderr : string) : Res string :=
  let out := "Return Value: " +:+ pretty returncode +:+ String Py.LF EmptyString in
  out ←
    (if decide (stdout = EmptyString) then Ok out
     else
       let out := out +:+ PrintWithPrefix "<Standard Out>" 2 in
       text ← stdout_read stdout;
       let out := out +:+ PrintWithPrefix text 4 in
       Ok (out +:+ PrintWithPrefix "</Standard Out>" 2));
  if decide (stderr = EmptyString) then Ok out
  else
    let out :=
      out +:+ PrintWithPrefix ("<Standard Err>" +:+ String Py.LF EmptyString) 2 in
    let out := out +:+ PrintWithPrefix stderr 4 in
    Ok (out +:+ PrintWithPrefix "</Standard Err>" 2).

(** [str(e)] for an exception value of the script. *)
Definition of_exn (e : Exn) : option (Res string) :=
  match e with
  | ShellError _ _ returncode stdout stderr => Some (to_str returncode stdout stderr)
  | _ => None
  end.

(** [k] copies of [s], one after the other. *)
Definition copies (k : nat) (s : string) : string :=
  Nat.iter k (String.append s) EmptyString.

End ShellErrorText.

(** ** What loading keeps true of a configuration *)

(** A path entry as the loader stores it: trimmed, not empty, without a
    space, no comment. *)
Definition stored_path (p : string) : Prop :=
  p ≠ EmptyString ∧ Py.strip p = p ∧ Py.contains Py.SP p = false ∧
  Py.startswith "#" p = false.

(** A key as the loader stores it. *)
Definition stored_key (k : string) : Prop :=
  k ≠ EmptyString ∧ Py.contains Py.SP k = false ∧ Py.startswith "#" k = false.

Definition well_loaded (cfg : BackupConfig) : Prop :=
  is_Some (cfg !! "FILEPATHS") ∧
  (∀ k v, cfg !! k = Some v → stored_key k) ∧
  (∀ k l, cfg !! k = Some (PList l) → k = "FILEPATHS" ∧ Forall stored_path l) ∧
  (∀ k v, cfg !! k = Some (PStr v) → v ≠ EmptyString).

(** ** The commands of a rotation *)

(** The [mv] command for generation [ii]. *)
Definition move_command (dir frequency : string) (ii : Z) : string :=
  mv_command (Py.path_join dir (generation frequency (ii - 1)))
             (Py.path_join dir (generation frequency ii)).

(** Every [mv] a rotation of depth [total] can issue, in the order of the
    loop. *)
Definition all_moves (dir frequency : string) (total : Z) : list Event :=
  (λ ii, Spawn (move_command dir frequency ii)) <$> range_down total 1.

(** ** The shape of the log *)

(** The messages that open and close the log span of a phase. *)
Definition phase_labels (ph : Phase) : string * string :=
  match ph with
  | Backup => ("Start Backup", "End Backup")
  | Snapshot frequency =>
      ("Start " +:+ frequency +:+ " Snapshot",
       "End " +:+ frequency +:+ " Snapshot")
  end.

(** What a phase writes between its labels: the commands it runs and the
    record of a failed pre-mount. *)
Definition inner_event (ev : Event) : Prop :=
  (∃ cmd, ev = Spawn cmd) ∨ ev = LogRecord ERROR "Pre Mount Failed".

(** The journal of phases that all ran to their end. *)
Inductive closed_spans : list Phase → list Event → Prop :=
  | closed_nil : closed_spans [] []
  | closed_cons ph phases body rest :
      Forall inner_event body →
      closed_spans phases rest →
      closed_spans (ph :: phases)
        (LogRecord INFO (phase_labels ph).1
         :: body ++ LogRecord INFO (phase_labels ph).2 :: rest).

(** The journal of the phases [phases] given how the run ended: all of them
    closed, or some of them closed and the next one ended by an exception,
    which is logged before its closing label. *)
Definition phase_log {A} (phases : list Phase) (r : Res A)
    (events : list Event) : Prop :=
  match r with
  | Ok _ => closed_spans phases events
  | Raise _ =>
      ∃ before ph later closed body,
        phases = before ++ ph :: later ∧
        closed_spans before closed ∧
        Forall inner_event body ∧
        events = closed ++ LogRecord INFO (phase_labels ph).1
                 :: body ++ [LogRecord ERROR "Unhandled exception";
                             LogRecord INFO (phase_labels ph).2]
  end.

Section Emits.
Context {W : Type} `{!Host W}.

(** A step whose journal entries all satisfy [P]. *)
Definition emits (P : Event → Prop) {A} (m : M W A) : Prop :=
  ∀ st, ∃ events, journal (m st).2 = journal st ++ events ∧ Forall P events.

End Emits.

(** * Properties *)

(** ** Strings *)

Lemma split1_cut c s :
  match cut c s with
  | Some (k, v) => Py.contains c s = true ∧ Py.split1 c s = [k; v]
  | None => Py.contains c s = false ∧ Py.split1 c s = [s]
  end.
Proof.
  induction s as [|a s IH]; simpl; [done|].
  destruct (decide (a = c)); [done|].
  destruct (cut c s) as [[k v]|]; simpl; destruct IH as [-> ->]; done.
Qed.

(** [cut] does cut at the first occurrence. *)
Lemma cut_first c s k v :
  cut c s = Some (k, v) → s = k +:+ String c v ∧ Py.contains c k = false.
Proof.
  revert k; induction s as [|a s IH]; simpl; intros k; [done|].
  destruct (decide (a = c)) as [->|Hne].
  - intros [= <- <-]; done.
  - destruct (cut c s) as [[k' v']|] eqn:E; simpl; [|done].
    intros [= <- <-]. destruct (IH k' eq_refl) as [-> Hk].
    simpl. destruct (decide (a = c)); done.
Qed.

Lemma cut_app c k v :
  Py.contains c k = false → cut c (k +:+ String c v) = Some (k, v).
Proof.
  induction k as [|a k IH]; simpl.
  - intros _. destruct (decide (c = c)); done.
  - destruct (decide (a = c)); [done|]. intros Hk. rewrite IH; done.
Qed.

(** ** Loading the configuration *)

Lemma Process_line_directive (self : BackupConfig) raw :
  Process_line self raw =
  match directive_of raw with
  | Skipped => Ok self
  | KeyValue k v => Ok (<[k := PStr v]> self)
  | PathEntry p =>
      match self !! "FILEPATHS" with
      | Some (PList paths) => Ok (<["FILEPATHS" := PList (paths ++ [p])]> self)
      | Some (PStr _) => Raise (AttributeError "append")
      | None => Raise (AttributeError "FILEPATHS")
      end
  end.
Proof.
  unfold Process_line, directive_of.
  destruct (is_comment_or_blank (Py.strip raw)); [done|].
  pose proof (split1_cut Py.SP (Py.strip raw)) as H.
  destruct (cut Py.SP (Py.strip raw)) as [[k v]|];
    destruct H as [Hc Hs]; rewrite Hc, ?Hs; done.
Qed.

Lemma Process_lines_app (self : BackupConfig) l1 l2 :
  Process_lines self (l1 ++ l2) =
  (self' ← Process_lines self l1; Process_lines self' l2).
Proof.
  revert self; induction l1 as [|raw l1 IH]; intros self; simpl; [done|].
  destruct (Process_line self raw) as [self'|e]; simpl; [apply IH|done].
Qed.

(** Lines without the key [FILEPATHS] fill the path list and the other
    attributes separately. *)
Lemma Process_lines_separate lines (self : BackupConfig) paths :
  self !! "FILEPATHS" = Some (PList paths) →
  "FILEPATHS" ∉ (key_values (directive_of <$> lines)).*1 →
  ∃ cfg : BackupConfig,
    Process_lines self lines = Ok cfg ∧
    cfg !! "FILEPATHS"
      = Some (PList (paths ++ path_entries (directive_of <$> lines))) ∧
    (∀ k, k ≠ "FILEPATHS" →
       cfg !! k = match last_value k (key_values (directive_of <$> lines)) with
                  | Some v => Some (PStr v)
                  | None => self !! k
                  end) ∧
    dom cfg = dom self ∪ list_to_set (key_values (directive_of <$> lines)).*1.
Proof.
  revert self paths; induction lines as [|raw lines IH]; intros self paths Hp Hk.
  - exists self. simpl. rewrite app_nil_r. split_and!; try done. set_solver.
  - simpl in *. rewrite Process_line_directive.
    destruct (directive_of raw) as [|k v|p]; simpl in *.
    + apply IH; done.
    + apply not_elem_of_cons in Hk as [Hne Hk].
      destruct (IH (<[k := PStr v]> self) paths) as (cfg & -> & Hf & Hv & Hd);
        [by rewrite lookup_insert_ne|done|].
      exists cfg. split_and!; try done.
      * intros k' Hk'. rewrite (Hv k' Hk').
        destruct (last_value k' _); [done|].
        destruct (decide (k = k')) as [->|?].
        -- by rewrite lookup_insert_eq.
        -- by rewrite lookup_insert_ne.
      * rewrite Hd, dom_insert_L. set_solver.
    + rewrite Hp; simpl.
      destruct (IH (<["FILEPATHS" := PList (paths ++ [p])]> self) (paths ++ [p]))
        as (cfg & -> & Hf & Hv & Hd); [by rewrite lookup_insert_eq|done|].
      exists cfg. split_and!; try done.
      * by rewrite Hf, <-app_assoc.
      * intros k' Hk'. rewrite (Hv k' Hk').
        destruct (last_value k' _); [done|]. by rewrite lookup_insert_ne.
      * rewrite Hd, dom_insert_L.
        assert ("FILEPATHS" ∈ dom self) by (apply elem_of_dom; eauto).
        set_solver.
Qed.

(** C7 (as amended).  For every configuration file none of whose key/value
    lines has the key [FILEPATHS]: loading succeeds, the path list holds
    exactly the path lines in file order, every key is mapped to the value of
    its last line (each line cut at its first space), and with distinct keys
    there are exactly as many mappings as key/value lines. *)
Theorem load_separates_paths_and_keys content :
  "FILEPATHS" ∉ (key_values (directives content)).*1 →
  loads_as_specified content.
Proof.
  intros Hk. unfold loads_as_specified, load, directives in *.
  destruct (Process_lines_separate (Py.readlines content)
              {["FILEPATHS" := PList []]} []) as (cfg & Hl & Hf & Hv & Hd);
    [done|done|].
  exists cfg. split_and!; try done.
  - intros k Hne. rewrite (Hv k Hne), lookup_singleton_ne by done.
    destruct (last_value k _); done.
  - intros Hnd. rewrite <-size_dom, dom_delete_L, Hd, dom_singleton_L.
    set (keys := (key_values (directive_of <$> Py.readlines content)).*1) in *.
    replace (({["FILEPATHS"]} ∪ list_to_set keys) ∖ {["FILEPATHS"]})
      with (list_to_set (C := gset string) keys) by set_solver.
    rewrite size_list_to_set by done. unfold keys. by rewrite length_fmap.
Qed.

Lemma load_separates_paths_and_keys_witness :
  let content :=
    text ["# where to log"; "LOG_FILE /var/log/backup.log"; "/srv/data/";
          "RSYNC_FLAGS -a --delete"; "/etc/fstab"] in
  ("FILEPATHS" ∉ (key_values (directives content)).*1) ∧
  loads_as_specified content.
Proof.
  assert ("FILEPATHS" ∉ (key_values (directives
            (text ["# where to log"; "LOG_FILE /var/log/backup.log";
                   "/srv/data/"; "RSYNC_FLAGS -a --delete"; "/etc/fstab"]))).*1)
    as H by (apply (bool_decide_unpack _); vm_compute; exact I).
  split; [exact H|].
  exact (load_separates_paths_and_keys _ H).
Defined.

(** C7 as stated fails: a key/value line with key [FILEPATHS] replaces the
    path list, so the path line before it is not among the loaded entries. *)
Lemma load_FILEPATHS_key_drops_paths :
  let content := text ["/srv/data/"; "FILEPATHS x"] in
  NoDup (key_values (directives content)).*1 ∧
  path_entries (directives content) = ["/srv/data/"] ∧
  ¬ loads_as_specified content.
Proof.
  split_and!.
  - vm_compute. apply NoDup_singleton.
  - reflexivity.
  - intros (cfg & Hl & Hf & _). vm_compute in Hl.
    injection Hl as <-. vm_compute in Hf. discriminate.
Qed.

(** Once the path list is a string, a path line cannot be appended. *)
Lemma Process_lines_overwritten lines (self : BackupConfig) s :
  self !! "FILEPATHS" = Some (PStr s) →
  if bool_decide (path_entries (directive_of <$> lines) ≠ [])
  then Process_lines self lines = Raise (AttributeError "append")
  else is_ok (Process_lines self lines) = true.
Proof.
  revert self s; induction lines as [|raw lines IH]; intros self s Hs; [done|].
  simpl. rewrite Process_line_directive.
  destruct (directive_of raw) as [|k v|p]; simpl.
  - by apply (IH self s).
  - destruct (decide (k = "FILEPATHS")) as [->|Hne].
    + apply (IH _ v). by rewrite lookup_insert_eq.
    + apply (IH _ s). by rewrite lookup_insert_ne.
  - by rewrite Hs.
Qed.

Lemma Process_lines_outcome lines (self : BackupConfig) paths :
  self !! "FILEPATHS" = Some (PList paths) →
  if path_after_FILEPATHS (directive_of <$> lines)
  then Process_lines self lines = Raise (AttributeError "append")
  else is_ok (Process_lines self lines) = true.
Proof.
  revert self paths; induction lines as [|raw lines IH]; intros self paths Hp;
    [done|].
  simpl. rewrite Process_line_directive.
  destruct (directive_of raw) as [|k v|p]; simpl.
  - by apply (IH self paths).
  - destruct (decide (k = "FILEPATHS")) as [->|Hne].
    + apply (Process_lines_overwritten lines _ v). by rewrite lookup_insert_eq.
    + apply (IH _ paths). by rewrite lookup_insert_ne.
  - rewrite Hp; simpl. apply (IH _ (paths ++ [p])). by rewrite lookup_insert_eq.
Qed.

Section Loading.
Context {W : Type} `{!Host W}.

(** C8 (as amended).  Where no file exists, [BackupConfig(filename)] fails
    with the assertion error and leaves host and journal as they were, and so
    does the whole script when that file is its configuration file.
    Where the file exists and can be read, loading checks no directive: it
    succeeds unless a path line follows a key/value line with key
    [FILEPATHS], and then it fails with an attribute error. *)
Theorem BackupConfig_init_outcome filename (st : State W) :
  (path_exists filename (world st) = false →
   BackupConfig_init filename st = (Raise (AssertionError None), st)) ∧
  (path_exists filename (world st) = false →
   ∀ home argv,
     getenv "HOME" (world st) = Some home →
     filename = Py.path_join home ".backuprc" →
     main argv st = (Raise (AssertionError None), st)) ∧
  (∀ content,
     path_exists filename (world st) = true →
     read_file filename (world st) = Some content →
     BackupConfig_init filename st = (load content, st) ∧
     if path_after_FILEPATHS (directives content)
     then load content = Raise (AttributeError "append")
     else is_ok (load content) = true).
Proof.
  assert (path_exists filename (world st) = false →
          BackupConfig_init filename st = (Raise (AssertionError None), st))
    as Hmissing.
  { intros He. unfold BackupConfig_init, os_path_exists, mbind, M_bind.
    rewrite He. done. }
  split_and!; [done| |].
  - intros He home argv Hh ->. unfold main, BACKUP_RC.
    unfold mbind at 1, M_bind at 1. rewrite Hh.
    unfold mbind at 1, M_bind at 1. by rewrite (Hmissing He).
  - intros content He Hr. split.
    + unfold BackupConfig_init, os_path_exists, open_text, mbind, M_bind.
      rewrite He. simpl. rewrite Hr. done.
    + apply (Process_lines_outcome _ _ []). done.
Qed.

End Loading.

Lemma BackupConfig_init_outcome_witness :
  let w := Sim.MkWorld
             {["/home/greg/.backuprc" :=
                 Sim.File (text ["LOG_FILE /tmp/log"; "/srv/"])]}
             (λ _, 0) ∅ in
  path_exists "/home/greg/.backuprc" w = true ∧
  path_exists "/root/.backuprc" w = false ∧
  BackupConfig_init "/root/.backuprc" (Sim.start w)
    = (Raise (AssertionError None), Sim.start w) ∧
  BackupConfig_init "/home/greg/.backuprc" (Sim.start w)
    = (load (text ["LOG_FILE /tmp/log"; "/srv/"]), Sim.start w).
Proof.
  intros w. split_and!.
  - reflexivity.
  - reflexivity.
  - apply (proj1 (BackupConfig_init_outcome "/root/.backuprc" (Sim.start w))).
    reflexivity.
  - apply (proj2 (proj2 (BackupConfig_init_outcome "/home/greg/.backuprc"
                           (Sim.start w)))); reflexivity.
Defined.

(** C8 as stated fails: the file exists, yet loading it raises. *)
Lemma existing_file_fails_to_load :
  let w := Sim.MkWorld
             {["/home/greg/.backuprc" :=
                 Sim.File (text ["FILEPATHS x"; "/srv/data/"])]}
             (λ _, 0) ∅ in
  path_exists "/home/greg/.backuprc" w = true ∧
  BackupConfig_init "/home/greg/.backuprc" (Sim.start w)
    = (Raise (AttributeError "append"), Sim.start w).
Proof. split; vm_compute; reflexivity. Qed.

(** C10.  A line whose key is [FILEPATHS] stores its value string under the
    attribute that held the path list: whatever paths the earlier lines had
    accumulated are gone, the attribute is a string and no list, a later path
    line cannot be appended to it, and iterating over it yields single
    characters. *)
Theorem FILEPATHS_key_overwrites_path_list lines raw value (cfg : BackupConfig) :
  Process_lines {["FILEPATHS" := PList []]} lines = Ok cfg →
  Py.strip raw = "FILEPATHS " +:+ value →
  let cfg' : BackupConfig := <["FILEPATHS" := PStr value]> cfg in
  Process_lines {["FILEPATHS" := PList []]} (lines ++ [raw]) = Ok cfg' ∧
  cfg' !! "FILEPATHS" = Some (PStr value) ∧
  (∀ paths, cfg' !! "FILEPATHS" ≠ Some (PList paths)) ∧
  (∀ raw' p, directive_of raw' = PathEntry p →
             Process_line cfg' raw' = Raise (AttributeError "append")) ∧
  iterate (PStr value) = Py.chars value.
Proof.
  intros Hl Hs cfg'. split_and!.
  - rewrite Process_lines_app, Hl. simpl.
    unfold Process_line. rewrite Hs. done.
  - apply lookup_insert_eq.
  - intros paths. unfold cfg'. rewrite lookup_insert_eq. done.
  - intros raw' p Hd. rewrite Process_line_directive, Hd.
    unfold cfg'. rewrite lookup_insert_eq. done.
  - done.
Qed.

Lemma FILEPATHS_key_overwrites_path_list_witness :
  let lines := ["/srv/data/"; "/etc/fstab"] in
  let cfg : BackupConfig :=
    {["FILEPATHS" := PList ["/srv/data/"; "/etc/fstab"]]} in
  Process_lines {["FILEPATHS" := PList []]} lines = Ok cfg ∧
  Process_lines {["FILEPATHS" := PList []]} (lines ++ ["FILEPATHS /mnt/usb"])
    = Ok (<["FILEPATHS" := PStr "/mnt/usb"]> cfg).
Proof.
  assert (Process_lines {["FILEPATHS" := PList []]} ["/srv/data/"; "/etc/fstab"]
          = Ok ({["FILEPATHS" := PList ["/srv/data/"; "/etc/fstab"]]}
                : BackupConfig)) as H by (vm_compute; reflexivity).
  split; [exact H|].
  exact (proj1 (FILEPATHS_key_overwrites_path_list
                  ["/srv/data/"; "/etc/fstab"] "FILEPATHS /mnt/usb" "/mnt/usb"
                  _ H eq_refl)).
Defined.

(** ** The backup run *)

Section Steps.
Context {W : Type} `{!Host W}.
Implicit Types (cfg : BackupConfig) (st : State W).

Lemma bind_assoc {A B C} (m : M W A) (f : A → M W B) (g : B → M W C) st :
  ((m ≫= f) ≫= g) st = (m ≫= (λ a, f a ≫= g)) st.
Proof. unfold mbind, M_bind. destruct (m st) as [[a|e] st']; done. Qed.

Lemma bind_ok {A B} (m : M W A) (f : A → M W B) st a st' :
  m st = (Ok a, st') → (m ≫= f) st = f a st'.
Proof. unfold mbind, M_bind. by intros ->. Qed.

Lemma bind_raise {A B} (m : M W A) (f : A → M W B) st e st' :
  m st = (Raise e, st') → (m ≫= f) st = (Raise e, st').
Proof. unfold mbind, M_bind. by intros ->. Qed.

Lemma seq_assoc (a b c : M W unit) st :
  (a ;; b ;; c) st = ((a ;; b) ;; c) st.
Proof. symmetry. apply bind_assoc. Qed.

Lemma seq_assoc4 (a b c d : M W unit) st :
  (a ;; b ;; c ;; d) st = ((a ;; b ;; c) ;; d) st.
Proof.
  unfold mbind, M_bind. destruct (a st) as [[[]|] ?]; [|done].
  destruct (b _) as [[[]|] ?]; [|done]. destruct (c _) as [[[]|] ?]; done.
Qed.

Lemma getattr_some cfg name v st :
  cfg !! name = Some v → getattr cfg name st = (Ok v, st).
Proof. unfold getattr. by intros ->. Qed.

Lemma getattr_none cfg name st :
  cfg !! name = None → getattr cfg name st = (Raise (AttributeError name), st).
Proof. unfold getattr. by intros ->. Qed.

Lemma Shell_exit cmd st proc w :
  popen cmd (world st) = (proc, w) →
  Shell cmd st =
  (if decide (returncode proc = 0) then Ok tt
   else Raise (ShellError cmd None (returncode proc) (stdout proc) (stderr proc)),
   MkState w (journal st ++ [Spawn cmd])).
Proof. unfold Shell. intros ->. by destruct (decide _). Qed.

Lemma for_each_app {A} (l1 l2 : list A) (body : A → M W unit) st :
  for_each (l1 ++ l2) body st = (for_each l1 body ;; for_each l2 body) st.
Proof.
  revert st; induction l1 as [|x l1 IH]; intros st; simpl; [done|].
  unfold mbind, M_bind in *. destruct (body x st) as [[[]|e] st']; [apply IH|done].
Qed.

Lemma bind_ok_inv {A B} (m : M W A) (f : A → M W B) st st' b :
  (m ≫= f) st = (Ok b, st') →
  ∃ a st1, m st = (Ok a, st1) ∧ f a st1 = (Ok b, st').
Proof.
  unfold mbind, M_bind. destruct (m st) as [[a|e] st1]; [eauto|done].
Qed.

Lemma Shell_ok_inv cmd st st' :
  Shell cmd st = (Ok tt, st') →
  ∃ proc, popen cmd (world st) = (proc, world st') ∧ returncode proc = 0 ∧
          journal st' = journal st ++ [Spawn cmd].
Proof.
  unfold Shell. destruct (popen cmd (world st)) as [proc w].
  destruct (decide _); [|done]. intros [= <-]. eauto.
Qed.

End Steps.

(** Read a configured attribute, or fail on a missing one, at the head of a
    sequence of steps. *)
Ltac read_attr H :=
  rewrite (bind_ok _ _ _ _ _ (getattr_some _ _ _ _ H)).
Ltac read_attr_in H Hrun :=
  rewrite (bind_ok _ _ _ _ _ (getattr_some _ _ _ _ H)) in Hrun.

Section Running.
Context {W : Type} `{!Host W}.
Implicit Types (cfg : BackupConfig) (st : State W).

(** Every step of the backup run only appends to the journal. *)
Lemma appends_bind {A B} (m : M W A) (f : A → M W B) :
  appends m → (∀ a, appends (f a)) → appends (m ≫= f).
Proof.
  intros Hm Hf st. unfold mbind, M_bind. destruct (Hm st) as [ev1 H1].
  destruct (m st) as [[a|e] st1]; simpl in *; [|eauto].
  destruct (Hf a st1) as [ev2 H2]. exists (ev1 ++ ev2).
  by rewrite H2, H1, <-app_assoc.
Qed.

Lemma appends_pure {A} (r : Res A) : appends (W:=W) (λ st, (r, st)).
Proof. intros st. exists []. by rewrite app_nil_r. Qed.

Lemma appends_getattr cfg name : appends (W:=W) (getattr cfg name).
Proof. unfold getattr. destruct (cfg !! name); apply appends_pure. Qed.

Lemma appends_Shell cmd : appends (W:=W) (Shell cmd).
Proof.
  intros st. exists [Spawn cmd]. unfold Shell.
  destruct (popen cmd (world st)) as [proc w]. by destruct (decide _).
Qed.

Lemma appends_for_each {A} (l : list A) (body : A → M W unit) :
  (∀ x, appends (body x)) → appends (for_each l body).
Proof.
  intros Hb. induction l as [|x l IH]; simpl; [apply appends_pure|].
  apply appends_bind; [apply Hb|done].
Qed.

Lemma appends_rsync_step cfg : appends (W:=W) (rsync_step cfg).
Proof.
  apply appends_bind; [apply appends_getattr|]. intros v.
  apply appends_for_each. intros x. unfold rsync_one.
  repeat (apply appends_bind; [apply appends_getattr|intros ?]).
  apply appends_Shell.
Qed.

Lemma appends_unmount_step cfg : appends (W:=W) (unmount_step cfg).
Proof.
  unfold unmount_step. destruct (should_unmount cfg); [|apply appends_pure].
  apply appends_bind; [apply appends_getattr|intros ?; apply appends_Shell].
Qed.

Lemma encfs_step_command cfg root password decrypted st :
  cfg !! "ENCRYPTED_MOUNTPOINT" = Some (PStr root) →
  cfg !! "ENCFS_PASSWORD" = Some password →
  cfg !! "DECRYPTED_MOUNTPOINT" = Some decrypted →
  encfs_step cfg st
  = Shell (encfs_command (py_str password) (Py.path_join root "current")
             (py_str decrypted)) st.
Proof.
  intros Hr Hp Hd. unfold encfs_step.
  read_attr Hr.
  unfold os_path_join. simpl. unfold mbind at 1, M_bind at 1, mret, M_ret.
  read_attr Hp. by read_attr Hd.
Qed.

(** C3, as the code has it.  Without a [PRE_MOUNT] attribute the run raises
    on the unbound local [premount]: no command is issued and the encrypted
    filesystem is never mounted. *)
Theorem RunBackup_without_PRE_MOUNT cfg st :
  cfg !! "PRE_MOUNT" = None →
  RunBackup cfg st = (Raise (UnboundLocalError "premount"), st).
Proof.
  intros Hp. unfold RunBackup. apply bind_raise.
  unfold premount_step, try_except, raise. rewrite Hp. done.
Qed.

(** C4.  With a pre-mount device configured: when [mount] exits with status
    32 the run goes on with the encrypted mount from the same state as when
    it exits with 0, and with the mount directives configured the [encfs]
    command is the next thing in the journal; any other non-zero status ends
    the run with that [ShellError], the journal holding the mount command and
    the error record and no other command. *)
Theorem premount_exit_status cfg st dev proc w :
  cfg !! "PRE_MOUNT" = Some dev →
  popen ("mount " +:+ py_str dev) (world st) = (proc, w) →
  let mounted := MkState w (journal st ++ [Spawn ("mount " +:+ py_str dev)]) in
  (returncode proc = 32 ∨ returncode proc = 0 →
   RunBackup cfg st
   = (encfs_step cfg ;; rsync_step cfg ;; unmount_step cfg) mounted) ∧
  (returncode proc = 32 →
   ∀ root password decrypted,
     cfg !! "ENCRYPTED_MOUNTPOINT" = Some (PStr root) →
     cfg !! "ENCFS_PASSWORD" = Some password →
     cfg !! "DECRYPTED_MOUNTPOINT" = Some decrypted →
     ∃ events,
       journal (RunBackup cfg st).2
       = journal st
         ++ [Spawn ("mount " +:+ py_str dev);
             Spawn (encfs_command (py_str password)
                      (Py.path_join root "current") (py_str decrypted))]
         ++ events) ∧
  (returncode proc ≠ 32 → returncode proc ≠ 0 →
   RunBackup cfg st
   = (Raise (ShellError ("mount " +:+ py_str dev) None (returncode proc)
               (stdout proc) (stderr proc)),
      MkState w (journal st ++ [Spawn ("mount " +:+ py_str dev);
                                LogRecord ERROR "Pre Mount Failed"]))).
Proof.
  intros Hp Hm mounted.
  assert (returncode proc = 32 ∨ returncode proc = 0 →
          RunBackup cfg st
          = (encfs_step cfg ;; rsync_step cfg ;; unmount_step cfg) mounted)
    as Hgo.
  { intros Hrc. unfold RunBackup.
    rewrite (bind_ok (premount_step cfg) _ st tt mounted); [done|].
    unfold premount_step, try_except. rewrite Hp, (Shell_exit _ _ _ _ Hm).
    destruct (decide (returncode proc = 0)) as [|Hne]; [done|].
    destruct Hrc as [Hrc|]; [|done].
    destruct (decide (returncode proc ≠ 32)); done. }
  split_and!; [done| |].
  - intros H32 root password decrypted Hr Hpw Hd. rewrite Hgo by auto.
    unfold mbind at 1, M_bind at 1.
    rewrite (encfs_step_command _ _ _ _ _ Hr Hpw Hd).
    unfold Shell at 1. destruct (popen _ (world mounted)) as [proc2 w2].
    destruct (decide _).
    + destruct (appends_bind (rsync_step cfg) (λ _, unmount_step cfg)
                  (appends_rsync_step cfg) (λ _, appends_unmount_step cfg)
                  (MkState w2 (journal mounted ++
                     [Spawn (encfs_command (py_str password)
                        (Py.path_join root "current") (py_str decrypted))])))
        as [events ->].
      exists events. simpl. by rewrite <-!app_assoc.
    + exists []. simpl. by rewrite <-!app_assoc.
  - intros H32 H0. unfold RunBackup. apply bind_raise.
    unfold premount_step, try_except. rewrite Hp, (Shell_exit _ _ _ _ Hm).
    destruct (decide (returncode proc = 0)); [done|].
    destruct (decide (returncode proc ≠ 32)); [|done].
    unfold logging_exception, emit, raise, mbind, M_bind. simpl.
    by rewrite <-app_assoc.
Qed.

Lemma rsync_one_command cfg flags decrypted filepath st :
  cfg !! "RSYNC_FLAGS" = Some flags →
  cfg !! "DECRYPTED_MOUNTPOINT" = Some decrypted →
  rsync_one cfg filepath st
  = Shell (rsync_command filepath (py_str flags) (py_str decrypted)) st.
Proof.
  intros Hf Hd. unfold rsync_one.
  read_attr Hf. read_attr Hd. done.
Qed.

(** A run of the loop whose commands all exit with status 0. *)
Lemma for_each_all_succeed {A} (cmd : A → string) (body : A → M W unit)
    (l : list A) st w :
  (∀ x st', body x st' = Shell (cmd x) st') →
  all_succeed (cmd <$> l) (world st) = Some w →
  for_each l body st = (Ok tt, MkState w (journal st ++ (Spawn ∘ cmd <$> l))).
Proof.
  intros Hb. revert st; induction l as [|x l IH]; intros st; simpl.
  - intros [= <-]. rewrite app_nil_r. by destruct st.
  - destruct (popen (cmd x) (world st)) as [proc w'] eqn:Hp.
    destruct (decide (returncode proc = 0)) as [H0|]; [|done]. intros Hl.
    rewrite (bind_ok _ _ _ tt
               (MkState w' (journal st ++ [Spawn (cmd x)]))).
    + rewrite (IH (MkState w' (journal st ++ [Spawn (cmd x)])) Hl).
      simpl. by rewrite <-app_assoc.
    + rewrite Hb, (Shell_exit _ _ _ _ Hp). by destruct (decide _).
Qed.

(** C5.  Once the mounts are in place the paths are synced in list order.
    When every [rsync] command exits with status 0, the journal holds one
    command per path, in that order.  When the commands for the paths [pre]
    exit with status 0 and the one for [p] does not, the run ends with the
    [ShellError] of that command, and the journal holds, after the mounts,
    exactly the [rsync] commands for [pre] and [p]: none for a later path,
    and no unmount. *)
Theorem sync_stops_at_first_failure cfg st st0 v flags decrypted :
  (premount_step cfg ;; encfs_step cfg) st = (Ok tt, st0) →
  cfg !! "FILEPATHS" = Some v →
  cfg !! "RSYNC_FLAGS" = Some flags →
  cfg !! "DECRYPTED_MOUNTPOINT" = Some decrypted →
  let cmd := λ f, rsync_command f (py_str flags) (py_str decrypted) in
  (∀ w1,
     all_succeed (cmd <$> iterate v) (world st0) = Some w1 →
     (premount_step cfg ;; encfs_step cfg ;; rsync_step cfg) st
     = (Ok tt, MkState w1 (journal st0 ++ (Spawn ∘ cmd <$> iterate v)))) ∧
  (∀ pre p post w1 proc w2,
     iterate v = pre ++ p :: post →
     all_succeed (cmd <$> pre) (world st0) = Some w1 →
     popen (cmd p) w1 = (proc, w2) →
     returncode proc ≠ 0 →
     RunBackup cfg st
     = (Raise (ShellError (cmd p) None (returncode proc) (stdout proc)
                 (stderr proc)),
        MkState w2 (journal st0 ++ (Spawn ∘ cmd <$> pre ++ [p])))).
Proof.
  intros Hm Hv Hf Hd cmd.
  assert (∀ x st', rsync_one cfg x st' = Shell (cmd x) st') as Hone
    by (intros; by apply rsync_one_command).
  split.
  - intros w1 Hall.
    rewrite (seq_assoc (premount_step cfg) (encfs_step cfg)).
    rewrite (bind_ok _ _ _ _ _ Hm). unfold rsync_step.
    read_attr Hv. by apply for_each_all_succeed.
  - intros pre p post w1 proc w2 Hi Hpre Hp Hrc. unfold RunBackup.
    rewrite (seq_assoc (premount_step cfg) (encfs_step cfg)).
    rewrite (bind_ok _ _ _ _ _ Hm).
    apply bind_raise. unfold rsync_step.
    read_attr Hv. rewrite Hi, for_each_app.
    rewrite (bind_ok _ _ _ _ _ (for_each_all_succeed cmd _ pre st0 w1 Hone Hpre)).
    simpl. apply bind_raise. rewrite Hone.
    rewrite (Shell_exit (cmd p)
               (MkState w1 (journal st0 ++ (Spawn ∘ cmd <$> pre))) proc w2 Hp).
    destruct (decide _); [done|]. simpl.
    by rewrite fmap_app, <-app_assoc.
Qed.

Lemma should_unmount_spec cfg :
  should_unmount cfg
  = bool_decide (cfg !! "UNMOUNT_AT_END" = None ∨
                 cfg !! "UNMOUNT_AT_END" = Some (PStr "True")).
Proof.
  unfold should_unmount. destruct (cfg !! "UNMOUNT_AT_END") as [v|].
  - destruct (decide (v = PStr "True")) as [->|Hne].
    + rewrite !bool_decide_eq_true_2; auto.
    + rewrite !bool_decide_eq_false_2; [done| |done].
      intros [|[=]]; done.
  - by rewrite bool_decide_eq_true_2; auto.
Qed.

(** C6.  After mounts and syncs have all succeeded (with any number of
    paths) the run issues the unmount command, and nothing else, exactly when
    [UNMOUNT_AT_END] is absent or is the string [True]; otherwise it ends at
    once and successfully, the mount left in place. *)
Theorem unmount_exactly_when cfg st st1 decrypted :
  (premount_step cfg ;; encfs_step cfg ;; rsync_step cfg) st = (Ok tt, st1) →
  cfg !! "DECRYPTED_MOUNTPOINT" = Some decrypted →
  let wanted := bool_decide (cfg !! "UNMOUNT_AT_END" = None ∨
                             cfg !! "UNMOUNT_AT_END" = Some (PStr "True")) in
  RunBackup cfg st
  = (if wanted then Shell (fusermount_command (py_str decrypted)) st1
     else (Ok tt, st1)) ∧
  journal (RunBackup cfg st).2
  = journal st1 ++
    (if wanted then [Spawn (fusermount_command (py_str decrypted))] else []).
Proof.
  intros Hs Hd wanted.
  assert (RunBackup cfg st
          = if wanted then Shell (fusermount_command (py_str decrypted)) st1
            else (Ok tt, st1)) as Hrun.
  { unfold RunBackup. rewrite seq_assoc4, (bind_ok _ _ _ _ _ Hs).
    unfold unmount_step, wanted. rewrite should_unmount_spec.
    destruct (bool_decide _); [|done].
    by read_attr Hd. }
  split; [done|]. rewrite Hrun. destruct wanted; [|by rewrite app_nil_r].
  unfold Shell. destruct (popen _ _) as [proc w]. by destruct (decide _).
Qed.

(** ** Dispatch *)

Lemma run_plan_app cfg l1 l2 st :
  run_plan cfg (l1 ++ l2) st =
  match run_plan cfg l1 st with
  | (Ok _, st') => run_plan cfg l2 st'
  | (Raise e, st') => (Raise e, st')
  end.
Proof.
  revert st; induction l1 as [|ph l1 IH]; intros st; simpl; [done|].
  destruct (run_phase cfg ph st) as [[[]|e] st']; [apply IH|done].
Qed.

Lemma rotations_in_order cfg args st :
  for_each args (λ arg,
    if decide (arg ≠ "snapshot") then snapshot_phase cfg arg else mret tt) st
  = run_plan cfg (Snapshot <$> filter (λ arg, arg ≠ "snapshot") args) st.
Proof.
  revert st; induction args as [|arg args IH]; intros st; simpl; [done|].
  rewrite filter_cons. unfold mbind, M_bind in *.
  destruct (decide (arg ≠ "snapshot")); simpl.
  - destruct (snapshot_phase cfg arg st) as [[[]|e] st']; [apply IH|done].
  - apply IH.
Qed.

(** C9.  The script runs the phases of [plan args]: the mount-and-sync phase
    first when the token [snapshot] occurs anywhere among the arguments, then
    one rotation per other token in argument order; and when a phase raises
    after the ones before it succeeded, the run ends there with that
    exception, in the state that phase left. *)
Theorem dispatch_order cfg args st :
  dispatch cfg args st = run_plan cfg (plan args) st ∧
  ∀ before ph later st1 e st2,
    plan args = before ++ ph :: later →
    run_plan cfg before st = (Ok tt, st1) →
    run_phase cfg ph st1 = (Raise e, st2) →
    dispatch cfg args st = (Raise e, st2).
Proof.
  assert (dispatch cfg args st = run_plan cfg (plan args) st) as Hd.
  { unfold dispatch, plan. rewrite run_plan_app.
    unfold mbind, M_bind. destruct (bool_decide _); simpl.
    - destruct (backup_phase cfg st) as [[[]|e] st']; [|done].
      apply rotations_in_order.
    - apply rotations_in_order. }
  split; [done|]. intros before ph later st1 e st2 Hp Hb Hph.
  rewrite Hd, Hp, run_plan_app, Hb. simpl. by rewrite Hph.
Qed.

(** ** Snapshot rotation: the frequency check *)

Lemma snapshots_pairs_table cfg table st :
  cfg !! "SNAPSHOTS" = Some (PStr table) →
  snapshots_pairs cfg st = (Ok (Py.split "," table), st).
Proof.
  intros Ht. unfold snapshots_pairs. by read_attr Ht.
Qed.

(** A frequency that is no key of the table leaves the count at its start
    value. *)
Lemma scan_snapshots_absent frequency pairs total :
  Forall (λ item, ∃ k v, Py.split "=" item = [k; v] ∧ k ≠ frequency) pairs →
  scan_snapshots frequency pairs total = Ok total.
Proof.
  induction 1 as [|item pairs (k & v & Hi & Hk) _ IH]; simpl; [done|].
  rewrite Hi. by destruct (decide (k = frequency)).
Qed.

(** C2, as the code has it.  When the frequency is no key of the depth table,
    or the scan of the table ends with a count of 0 or less, [MakeSnapshot]
    raises before any command is issued and leaves host and journal as they
    were; what it raises is the [NameError] of the assertion message, not
    the assertion error. *)
Theorem MakeSnapshot_invalid_frequency cfg frequency table st :
  cfg !! "SNAPSHOTS" = Some (PStr table) →
  Forall (λ item, ∃ k v, Py.split "=" item = [k; v] ∧ k ≠ frequency)
    (Py.split "," table) ∨
  (∃ total, scan_snapshots frequency (Py.split "," table) 0 = Ok total ∧
            total ≤ 0) →
  MakeSnapshot cfg frequency st = (Raise (NameError "frequency_type"), st).
Proof.
  intros Ht Hbad.
  assert (∃ total, scan_snapshots frequency (Py.split "," table) 0 = Ok total ∧
                   total ≤ 0) as (total & Hs & Hle).
  { destruct Hbad as [Habsent|]; [|done].
    exists 0. by rewrite (scan_snapshots_absent _ _ _ Habsent). }
  unfold MakeSnapshot.
  rewrite (bind_ok _ _ _ _ _ (snapshots_pairs_table _ _ _ Ht)).
  unfold lift at 1. unfold mbind at 1, M_bind at 1. rewrite Hs.
  apply bind_raise. unfold py_assert.
  rewrite bool_decide_eq_false_2 by lia. done.
Qed.

(** Whenever the scan does not end with a positive count, whatever the
    configuration, the rotation raises and leaves host and journal as they
    were. *)
Lemma MakeSnapshot_rejects_untouched cfg frequency st :
  (∀ table total,
     cfg !! "SNAPSHOTS" = Some (PStr table) →
     scan_snapshots frequency (Py.split "," table) 0 = Ok total →
     total ≤ 0) →
  ∃ e, MakeSnapshot cfg frequency st = (Raise e, st).
Proof.
  intros Hbad. unfold MakeSnapshot.
  destruct (cfg !! "SNAPSHOTS") as [[table|l]|] eqn:Ht.
  - rewrite (bind_ok _ _ _ _ _ (snapshots_pairs_table _ _ _ Ht)).
    unfold lift at 1. unfold mbind at 1, M_bind at 1.
    destruct (scan_snapshots frequency (Py.split "," table) 0)
      as [total|e] eqn:Hs; [|eauto].
    exists (NameError "frequency_type"). apply bind_raise. unfold py_assert.
    rewrite bool_decide_eq_false_2; [done|]. specialize (Hbad _ _ eq_refl Hs). lia.
  - exists (AttributeError "split"). apply bind_raise.
    unfold snapshots_pairs. by read_attr Ht.
  - exists (AttributeError "SNAPSHOTS"). apply bind_raise.
    unfold snapshots_pairs. by rewrite (bind_raise _ _ _ _ _ (getattr_none _ _ _ Ht)).
Qed.

End Running.

(** ** Snapshot rotation: generation names *)

Lemma append_cons c a b : String c a +:+ b = String c (a +:+ b).
Proof. reflexivity. Qed.

Lemma all_chars_app ok a b :
  all_chars ok (a +:+ b) = all_chars ok a && all_chars ok b.
Proof.
  induction a as [|c a IH]; [done|].
  rewrite append_cons. simpl. rewrite IH. by destruct (ok c).
Qed.

Lemma contains_app_r c a b : Py.contains c (a +:+ String c b) = true.
Proof.
  induction a as [|x a IH].
  - simpl. by destruct (decide (c = c)).
  - rewrite append_cons. simpl. by destruct (decide (x = c)).
Qed.

Lemma pretty_N_go_name_chars x s :
  all_chars name_char s = true →
  all_chars name_char (pretty_N_go x s) = true.
Proof.
  revert s. induction (N.lt_wf_0 x) as [x _ IH]; intros s Hs.
  assert (x = 0 ∨ 0 < x)%N as [->|?] by lia.
  - by rewrite pretty_N_go_0.
  - rewrite pretty_N_go_step by done. apply IH; [by apply N.div_lt|].
    simpl. rewrite Hs. unfold pretty_N_char. by repeat case_match.
Qed.

Lemma pretty_Z_name_chars (i : Z) :
  0 < i → all_chars name_char (pretty i) = true.
Proof.
  destruct i as [|p|p]; [lia| |lia]. intros _.
  unfold pretty, pretty_Z, pretty, pretty_positive, pretty, pretty_N.
  rewrite decide_False by done. by apply pretty_N_go_name_chars.
Qed.

Lemma simple_name_generation frequency i :
  simple_name frequency → 0 < i → simple_name (generation frequency i).
Proof.
  intros [Hne Hc] Hi. unfold generation. split.
  - destruct frequency; [done|]. by rewrite append_cons.
  - rewrite !all_chars_app, Hc, pretty_Z_name_chars by done. done.
Qed.

Lemma generation_inj frequency i j :
  generation frequency i = generation frequency j → i = j.
Proof.
  unfold generation. intros H.
  apply (inj (String.app frequency)), (inj (String.app ".")) in H.
  by apply (inj pretty) in H.
Qed.

Lemma generation_not_current frequency i : generation frequency i ≠ "current".
Proof.
  intros H. pose proof (contains_app_r "." frequency (pretty i)) as Hc.
  unfold generation in H. change ("." +:+ pretty i) with (String "." (pretty i)) in H.
  rewrite H in Hc. done.
Qed.

Lemma generation_1 frequency : frequency +:+ ".1" = generation frequency 1.
Proof. reflexivity. Qed.

Lemma simple_name_current : simple_name "current".
Proof. split; done. Qed.

Lemma simple_name_relative n : simple_name n → Py.startswith "/" n = false.
Proof.
  intros [Hne Hc]. destruct n as [|c n]; [done|]. simpl in *.
  apply bool_decide_eq_false_2. intros ->. done.
Qed.

(** Names inside one directory have different paths. *)
Lemma path_join_inj dir n m :
  simple_name n → simple_name m →
  Py.path_join dir n = Py.path_join dir m → n = m.
Proof.
  intros Hn Hm. unfold Py.path_join.
  rewrite !simple_name_relative by done.
  destruct (_ || _).
  - apply (inj (String.app dir)).
  - intros H. by apply (inj (String.app dir)), (inj (String.app "/")) in H.
Qed.

(** ** Snapshot rotation: the end state *)

Section Rotation.
Context {W D : Type} `{!Host W} `{!PosixTools W D}.
Context (cfg : BackupConfig) (dir frequency : string).
Context (root_is_dir : cfg !! "ENCRYPTED_MOUNTPOINT" = Some (PStr dir)).
Context (dir_plain : plain_path dir) (frequency_simple : simple_name frequency).

Local Abbreviation gen := (generation frequency).
Local Notation "dir // n" := (Py.path_join dir n) (at level 40).

Lemma root_join n (st : State W) :
  simple_name n →
  (root ← getattr cfg "ENCRYPTED_MOUNTPOINT"; os_path_join root n) st
  = (Ok (dir // n), st).
Proof.
  intros Hn. read_attr root_is_dir.
  unfold os_path_join. by rewrite simple_name_relative.
Qed.

(** One iteration: generation [ii - 1], if there, becomes generation [ii]. *)
Lemma shift_one_spec ii (st st' : State W) :
  2 ≤ ii →
  entry dir (gen ii) (world st) = None →
  shift_one cfg frequency ii st = (Ok tt, st') →
  entry dir (gen ii) (world st') = entry dir (gen (ii - 1)) (world st) ∧
  entry dir (gen (ii - 1)) (world st') = None ∧
  (∀ m, simple_name m → m ≠ gen ii → m ≠ gen (ii - 1) →
        entry dir m (world st') = entry dir m (world st)) ∧
  journal st' = journal st ++ shift_events dir frequency (world st) [ii].
Proof.
  intros Hii Hfree Hrun.
  assert (simple_name (gen ii)) as Hd by (apply simple_name_generation; [done|lia]).
  assert (simple_name (gen (ii - 1))) as Hs
    by (apply simple_name_generation; [done|lia]).
  unfold shift_one in Hrun.
  rewrite <-bind_assoc, (bind_ok _ _ _ _ _ (root_join _ _ Hs)) in Hrun.
  rewrite <-bind_assoc, (bind_ok _ _ _ _ _ (root_join _ _ Hd)) in Hrun.
  unfold os_path_exists in Hrun. unfold mbind at 1, M_bind at 1 in Hrun.
  rewrite exists_entry in Hrun by done.
  unfold shift_events. simpl.
  destruct (entry dir (gen (ii - 1)) (world st)) as [t|] eqn:Hsrc.
  - rewrite bool_decide_eq_true_2 in Hrun by eauto.
    apply Shell_ok_inv in Hrun as (proc & Hp & Hrc & Hj).
    pose proof (mv_done dir (gen (ii - 1)) (gen ii) (world st)
                  dir_plain Hs Hd) as Hmv.
    rewrite Hp in Hmv. destruct (Hmv Hrc Hfree) as (Hnew & Hold & Hrest).
    rewrite Hnew, Hsrc, Hj. split_and!; try done.
    intros m Hm H1 H2. by apply Hrest.
  - rewrite bool_decide_eq_false_2 in Hrun by (intros [? [=]]).
    injection Hrun as <-. rewrite app_nil_r. done.
Qed.

Lemma range_down_cons hi lo :
  lo < hi → range_down hi lo = hi :: range_down (hi - 1) lo.
Proof.
  intros Hlt. unfold range_down.
  replace (Z.to_nat (hi - lo)) with (S (Z.to_nat (hi - 1 - lo))) by lia.
  rewrite <-cons_seq, fmap_cons. f_equal; [lia|].
  rewrite <-fmap_S_seq, <-list_fmap_compose.
  apply list_fmap_ext. intros _ k _. simpl. lia.
Qed.

Lemma range_down_nil hi lo : hi ≤ lo → range_down hi lo = [].
Proof.
  intros Hle. unfold range_down.
  by replace (Z.to_nat (hi - lo)) with 0%nat by lia.
Qed.

Lemma elem_of_range_down i hi lo : i ∈ range_down hi lo → lo < i ≤ hi.
Proof.
  unfold range_down. intros (k & -> & Hk%elem_of_seq)%list_elem_of_fmap. lia.
Qed.

Lemma shift_events_cons (w : W) ii l :
  shift_events dir frequency w (ii :: l)
  = shift_events dir frequency w [ii] ++ shift_events dir frequency w l.
Proof. unfold shift_events. simpl. by rewrite app_nil_r. Qed.

Lemma shift_events_ext (w1 w2 : W) l :
  (∀ ii, ii ∈ l → entry dir (gen (ii - 1)) w1 = entry dir (gen (ii - 1)) w2) →
  shift_events dir frequency w1 l = shift_events dir frequency w2 l.
Proof.
  induction l as [|ii l IH]; intros Hl; [done|].
  rewrite (shift_events_cons w1), (shift_events_cons w2), IH.
  - unfold shift_events. simpl. rewrite (Hl ii) by left. done.
  - intros ii' Hin. apply Hl. by right.
Qed.

(** The whole loop, from generation [hi] down to 2, entered with no
    generation [hi]. *)
Lemma shift_loop_spec (n : nat) : ∀ hi (st st' : State W),
  hi = Z.of_nat n + 1 →
  entry dir (gen hi) (world st) = None →
  for_each (range_down hi 1) (shift_one cfg frequency) st = (Ok tt, st') →
  (∀ i, 2 ≤ i ≤ hi →
        entry dir (gen i) (world st') = entry dir (gen (i - 1)) (world st)) ∧
  entry dir (gen 1) (world st') = None ∧
  (∀ m, simple_name m → (∀ i, 1 ≤ i ≤ hi → m ≠ gen i) →
        entry dir m (world st') = entry dir m (world st)) ∧
  journal st' = journal st ++ shift_events dir frequency (world st)
                                 (range_down hi 1).
Proof.
  induction n as [|n IH]; intros hi st st' Hhi Hfree Hrun.
  - simpl in Hhi. subst hi. rewrite range_down_nil in * by lia.
    injection Hrun as <-. split_and!; try done; [lia|].
    by rewrite app_nil_r.
  - rewrite range_down_cons in * by lia. simpl in Hrun.
    apply bind_ok_inv in Hrun as ([] & st1 & Hone & Hrest).
    destruct (shift_one_spec hi st st1) as (H1 & H2 & H3 & H4);
      [lia|done|done|].
    destruct (IH (hi - 1) st1 st') as (I1 & I2 & I3 & I4); [lia|done|done|].
    assert (∀ i, 1 ≤ i → simple_name (gen i)) as Hsimple
      by (intros; apply simple_name_generation; [done|lia]).
    assert (∀ i j, i ≠ j → gen i ≠ gen j) as Hne
      by (intros i j Hij Heq; by apply generation_inj in Heq).
    split_and!.
    + intros i Hi. destruct (decide (i = hi)) as [->|Hlt].
      * rewrite I3, H1; [done|by apply Hsimple; lia|].
        intros i Hi'. apply Hne. lia.
      * rewrite I1 by lia. apply H3; [apply Hsimple; lia|apply Hne; lia..].
    + done.
    + intros m Hm Hfresh. rewrite I3, H3; try done.
      * apply Hfresh; lia.
      * apply Hfresh; lia.
      * intros i Hi. apply Hfresh. lia.
    + rewrite I4, H4, (shift_events_cons _ hi (range_down _ _)), <-app_assoc.
      do 2 f_equal.
      apply shift_events_ext. intros ii Hin%elem_of_range_down.
      apply H3; [apply Hsimple; lia|apply Hne; lia..].
Qed.


Local Abbreviation move_of w :=
  (λ ii : Z, match entry dir (gen (ii - 1)) w with
             | Some _ => [mv_command (dir // gen (ii - 1)) (dir // gen ii)]
             | None => []
             end).








End Rotation.

(** ** The simulated host honours the tool laws *)

Lemma strip_prefix_app p s : Sim.strip_prefix p (p +:+ s) = Some s.
Proof.
  induction p as [|a p IH]; [by destruct s|].
  rewrite append_cons. simpl. by destruct (decide (a = a)).
Qed.

Lemma all_chars_impl (ok ok' : ascii → bool) s :
  (∀ c, ok c = true → ok' c = true) →
  all_chars ok s = true → all_chars ok' s = true.
Proof.
  intros Himp. induction s as [|c s IH]; simpl; [done|].
  intros [Hc Hs]%andb_prop. by rewrite (Himp c Hc), IH.
Qed.

Lemma path_chars_no_space p :
  all_chars path_char p = true → Py.contains Py.SP p = false.
Proof.
  induction p as [|c p IH]; simpl; [done|].
  intros [Hc Hp]%andb_prop. destruct (decide (c = Py.SP)) as [->|]; [done|].
  by apply IH.
Qed.

Lemma plain_join_no_space dir n :
  plain_path dir → simple_name n →
  Py.contains Py.SP (Py.path_join dir n) = false.
Proof.
  intros (_ & _ & Hd) Hn. apply path_chars_no_space.
  assert (all_chars path_char n = true) as Hn'.
  { destruct Hn as [_ Hn]. revert Hn. apply all_chars_impl.
    intros c Hc. unfold path_char. by rewrite Hc. }
  unfold Py.path_join. rewrite simple_name_relative by done.
  destruct (_ || _); rewrite !all_chars_app, Hd, Hn'; done.
Qed.

Lemma two_paths_words s d :
  Py.contains Py.SP s = false → Sim.two_paths (s +:+ " " +:+ d) = Some (s, d).
Proof.
  intros Hs. unfold Sim.two_paths.
  pose proof (split1_cut Py.SP (s +:+ String Py.SP d)) as H.
  rewrite (cut_app _ _ _ Hs) in H. destruct H as [_ H].
  change (s +:+ " " +:+ d) with (s +:+ String Py.SP d). by rewrite H.
Qed.

Lemma Sim_run_rm p w :
  Sim.run (rm_command p) w
  = (Sim.exited 0, Sim.with_nodes w (delete p (Sim.nodes w))).
Proof. unfold Sim.run, rm_command. by rewrite strip_prefix_app. Qed.

Lemma Sim_run_mv s d w :
  Py.contains Py.SP s = false →
  Sim.run (mv_command s d) w
  = match Sim.nodes w !! s, Sim.nodes w !! d with
    | Some t, None =>
        (Sim.exited 0, Sim.with_nodes w (<[d := t]> (delete s (Sim.nodes w))))
    | _, _ => (Sim.exited 1, w)
    end.
Proof.
  intros Hs. unfold Sim.run, mv_command.
  change (Sim.strip_prefix "rm -rf " ("mv " +:+ s +:+ " " +:+ d)) with (@None string).
  rewrite strip_prefix_app. simpl. by rewrite two_paths_words.
Qed.

Lemma Sim_run_cp s d w :
  Py.contains Py.SP s = false →
  Sim.run (cp_command s d) w
  = match Sim.nodes w !! s, Sim.nodes w !! d with
    | Some t, None => (Sim.exited 0, Sim.with_nodes w (<[d := t]> (Sim.nodes w)))
    | _, _ => (Sim.exited 1, w)
    end.
Proof.
  intros Hs. unfold Sim.run, cp_command.
  change (Sim.strip_prefix "rm -rf " ("cp -al " +:+ s +:+ " " +:+ d))
    with (@None string).
  change (Sim.strip_prefix "mv " ("cp -al " +:+ s +:+ " " +:+ d))
    with (@None string).
  rewrite strip_prefix_app. simpl. by rewrite two_paths_words.
Qed.

Lemma Sim_exists_entry dir n w :
  plain_path dir → simple_name n →
  path_exists (Py.path_join dir n) w = bool_decide (is_Some (Sim.entry_at dir n w)).
Proof. done. Qed.

Lemma Sim_rm_rf_done dir n w :
  plain_path dir → simple_name n →
  let '(proc, w') := popen (rm_command (Py.path_join dir n)) w in
  returncode proc = 0 →
  Sim.entry_at dir n w' = None ∧
  ∀ m, simple_name m → m ≠ n → Sim.entry_at dir m w' = Sim.entry_at dir m w.
Proof.
  intros Hd Hn.
  change (popen (rm_command (Py.path_join dir n)) w)
    with (Sim.run (rm_command (Py.path_join dir n)) w).
  rewrite Sim_run_rm. intros _.
  unfold Sim.entry_at; simpl. split; [apply lookup_delete_eq|].
  intros m Hm Hne. apply lookup_delete_ne.
  intros Heq. by apply path_join_inj in Heq.
Qed.

Lemma Sim_mv_done dir s d w :
  plain_path dir → simple_name s → simple_name d →
  let '(proc, w') :=
    popen (mv_command (Py.path_join dir s) (Py.path_join dir d)) w in
  returncode proc = 0 → Sim.entry_at dir d w = None →
  Sim.entry_at dir d w' = Sim.entry_at dir s w ∧ Sim.entry_at dir s w' = None ∧
  ∀ m, simple_name m → m ≠ s → m ≠ d → Sim.entry_at dir m w' = Sim.entry_at dir m w.
Proof.
  intros Hdir Hs Hd.
  change (popen (mv_command (Py.path_join dir s) (Py.path_join dir d)) w)
    with (Sim.run (mv_command (Py.path_join dir s) (Py.path_join dir d)) w).
  rewrite Sim_run_mv by by apply plain_join_no_space.
  unfold Sim.entry_at.
  destruct (Sim.nodes w !! Py.path_join dir s) as [t|] eqn:Es; [|done].
  destruct (Sim.nodes w !! Py.path_join dir d) as [t'|] eqn:Ed; [done|].
  intros _ _. simpl.
  assert (Py.path_join dir s ≠ Py.path_join dir d) as Hsd
    by (intros Heq; rewrite Heq in Es; congruence).
  split_and!.
  - by rewrite lookup_insert_eq.
  - by rewrite lookup_insert_ne, lookup_delete_eq.
  - intros m Hm H1 H2. rewrite lookup_insert_ne, lookup_delete_ne; [done|..];
      intros Heq; by apply path_join_inj in Heq.
Qed.

Lemma Sim_cp_al_done dir s d w :
  plain_path dir → simple_name s → simple_name d →
  let '(proc, w') :=
    popen (cp_command (Py.path_join dir s) (Py.path_join dir d)) w in
  returncode proc = 0 → Sim.entry_at dir d w = None →
  is_Some (Sim.entry_at dir s w) ∧ Sim.entry_at dir d w' = Sim.entry_at dir s w ∧
  ∀ m, simple_name m → m ≠ d → Sim.entry_at dir m w' = Sim.entry_at dir m w.
Proof.
  intros Hdir Hs Hd.
  change (popen (cp_command (Py.path_join dir s) (Py.path_join dir d)) w)
    with (Sim.run (cp_command (Py.path_join dir s) (Py.path_join dir d)) w).
  rewrite Sim_run_cp by by apply plain_join_no_space.
  unfold Sim.entry_at.
  destruct (Sim.nodes w !! Py.path_join dir s) as [t|] eqn:Es; [|done].
  destruct (Sim.nodes w !! Py.path_join dir d) as [t'|] eqn:Ed; [done|].
  intros _ _. simpl. split_and!.
  - eauto.
  - by rewrite lookup_insert_eq.
  - intros m Hm H1. rewrite lookup_insert_ne; [done|].
    intros Heq; by apply path_join_inj in Heq.
Qed.

Global Instance Sim_tools : PosixTools Sim.World Sim.Node := {|
  entry := Sim.entry_at;
  exists_entry := Sim_exists_entry;
  rm_rf_done := Sim_rm_rf_done;
  mv_done := Sim_mv_done;
  cp_al_done := Sim_cp_al_done;
|}.

(** ** The theorems at the sample installation *)



Lemma MakeSnapshot_invalid_frequency_witness :
  let st := Sim.start (Example.host Example.all_fine) in
  Example.cfg !! "SNAPSHOTS" = Some (PStr "hourly=2,daily=3") ∧
  MakeSnapshot Example.cfg "weekly" st = (Raise (NameError "frequency_type"), st) ∧
  MakeSnapshot (<["SNAPSHOTS" := PStr "daily=0"]> Example.cfg) "daily" st
  = (Raise (NameError "frequency_type"), st).
Proof.
  intros st.
  assert (Example.cfg !! "SNAPSHOTS" = Some (PStr "hourly=2,daily=3")) as Htable
    by (vm_compute; reflexivity).
  split_and!; [exact Htable| |].
  - refine (MakeSnapshot_invalid_frequency Example.cfg "weekly" _ st Htable _).
    left. repeat constructor; eexists _, _; (split; [reflexivity|discriminate]).
  - refine (MakeSnapshot_invalid_frequency _ "daily" "daily=0" st _ _).
    + apply lookup_insert_eq.
    + right. exists 0. split; [reflexivity|lia].
Defined.

Lemma RunBackup_without_PRE_MOUNT_witness :
  let cfg : BackupConfig := delete "PRE_MOUNT" Example.cfg in
  let st := Sim.start (Example.host Example.all_fine) in
  cfg !! "PRE_MOUNT" = None ∧
  RunBackup cfg st = (Raise (UnboundLocalError "premount"), st).
Proof.
  intros cfg st.
  assert (cfg !! "PRE_MOUNT" = None) as H by apply lookup_delete_eq.
  split; [exact H|]. exact (RunBackup_without_PRE_MOUNT cfg st H).
Defined.

Lemma premount_exit_status_witness :
  let busy := Sim.start (Example.host (Example.failing "mount /dev/sdb1" 32)) in
  let broken := Sim.start (Example.host (Example.failing "mount /dev/sdb1" 1)) in
  RunBackup Example.cfg busy
  = (encfs_step Example.cfg ;; rsync_step Example.cfg ;;
     unmount_step Example.cfg)
      (MkState (world busy) [Spawn "mount /dev/sdb1"]) ∧
  RunBackup Example.cfg broken
  = (Raise (ShellError "mount /dev/sdb1" None 1 EmptyString EmptyString),
     MkState (world broken)
       [Spawn "mount /dev/sdb1"; LogRecord ERROR "Pre Mount Failed"]).
Proof.
  intros busy broken.
  assert (Example.cfg !! "PRE_MOUNT" = Some (PStr "/dev/sdb1")) as Hdev
    by (vm_compute; reflexivity).
  split.
  - assert (popen ("mount " +:+ py_str (PStr "/dev/sdb1")) (world busy)
            = (Sim.exited 32, world busy)) as Hm by (vm_compute; reflexivity).
    apply (proj1 (premount_exit_status Example.cfg busy _ _ _ Hdev Hm)).
    left. reflexivity.
  - assert (popen ("mount " +:+ py_str (PStr "/dev/sdb1")) (world broken)
            = (Sim.exited 1, world broken)) as Hm by (vm_compute; reflexivity).
    apply (proj2 (proj2 (premount_exit_status Example.cfg broken _ _ _ Hdev Hm)));
      discriminate.
Defined.

Lemma sync_stops_at_first_failure_witness :
  let w := Example.host (Example.failing "rsync /etc/fstab -a /dec" 23) in
  let mounts := [Spawn "mount /dev/sdb1";
                 Spawn "echo 'secret' | encfs -S /enc/current /dec"] in
  (premount_step Example.cfg ;; encfs_step Example.cfg) (Sim.start w)
  = (Ok tt, MkState w mounts) ∧
  RunBackup Example.cfg (Sim.start w)
  = (Raise (ShellError "rsync /etc/fstab -a /dec" None 23 EmptyString
              EmptyString),
     MkState w (mounts ++ [Spawn "rsync /srv/data/ -a /dec";
                           Spawn "rsync /etc/fstab -a /dec"])).
Proof.
  intros w mounts.
  assert ((premount_step Example.cfg ;; encfs_step Example.cfg) (Sim.start w)
          = (Ok tt, MkState w mounts)) as Hmounts by (vm_compute; reflexivity).
  split; [exact Hmounts|].
  refine (proj2 (sync_stops_at_first_failure Example.cfg (Sim.start w)
                   (MkState w mounts)
                   (PList ["/srv/data/"; "/etc/fstab"; "/home/greg/"])
                   (PStr "-a") (PStr "/dec") Hmounts _ _ _)
            ["/srv/data/"] "/etc/fstab" ["/home/greg/"] w (Sim.exited 23) w
            _ _ _ _);
    try (vm_compute; reflexivity).
  discriminate.
Defined.

Lemma unmount_exactly_when_witness :
  let cfg : BackupConfig := <["UNMOUNT_AT_END" := PStr "False"]> Example.cfg in
  let st := Sim.start (Example.host Example.all_fine) in
  let synced :=
    MkState (world st)
      [Spawn "mount /dev/sdb1";
       Spawn "echo 'secret' | encfs -S /enc/current /dec";
       Spawn "rsync /srv/data/ -a /dec"; Spawn "rsync /etc/fstab -a /dec";
       Spawn "rsync /home/greg/ -a /dec"] in
  (premount_step cfg ;; encfs_step cfg ;; rsync_step cfg) st = (Ok tt, synced) ∧
  RunBackup cfg st = (Ok tt, synced) ∧
  RunBackup Example.cfg st
  = Shell "fusermount -u /dec" synced.
Proof.
  intros cfg st synced.
  assert ((premount_step cfg ;; encfs_step cfg ;; rsync_step cfg) st
          = (Ok tt, synced)) as Hs by (vm_compute; reflexivity).
  assert ((premount_step Example.cfg ;; encfs_step Example.cfg ;;
           rsync_step Example.cfg) st = (Ok tt, synced)) as Hs'
    by (vm_compute; reflexivity).
  assert (cfg !! "DECRYPTED_MOUNTPOINT" = Some (PStr "/dec")) as Hd
    by (vm_compute; reflexivity).
  assert (Example.cfg !! "DECRYPTED_MOUNTPOINT" = Some (PStr "/dec")) as Hd'
    by (vm_compute; reflexivity).
  split_and!.
  - exact Hs.
  - exact (proj1 (unmount_exactly_when cfg st synced _ Hs Hd)).
  - exact (proj1 (unmount_exactly_when Example.cfg st synced _ Hs' Hd')).
Defined.

Lemma dispatch_order_witness :
  let st := Sim.start (Example.host Example.all_fine) in
  let args := ["daily"; "snapshot"; "weekly"] in
  let st1 := (run_plan Example.cfg [Backup; Snapshot "daily"] st).2 in
  let st2 := (run_phase Example.cfg (Snapshot "weekly") st1).2 in
  plan args = [Backup; Snapshot "daily"] ++ Snapshot "weekly" :: [] ∧
  dispatch Example.cfg args st = (Raise (NameError "frequency_type"), st2).
Proof.
  intros st args st1 st2.
  assert (plan args = [Backup; Snapshot "daily"] ++ Snapshot "weekly" :: [])
    as Hplan by (vm_compute; reflexivity).
  split; [exact Hplan|].
  refine (proj2 (dispatch_order Example.cfg args st) _ _ _ st1 _ st2 Hplan _ _);
    vm_compute; reflexivity.
Defined.

(** * Further properties of the script *)

(** ** Trimming *)

Lemma lstrip_head s :
  match Py.lstrip s with
  | EmptyString => True
  | String c _ => Py.isspace c = false
  end.
Proof.
  induction s as [|c s IH]; simpl; [done|].
  destruct (Py.isspace c) eqn:Hc; [done|]. by rewrite Hc.
Qed.

Lemma rstrip_cons c s :
  Py.isspace c = false → ∃ r, Py.rstrip (String c s) = String c r.
Proof. intros Hc. simpl. rewrite Hc. destruct (Py.rstrip s); eauto. Qed.

Lemma rstrip_idemp s : Py.rstrip (Py.rstrip s) = Py.rstrip s.
Proof.
  induction s as [|c s IH]; [done|]. simpl.
  destruct (Py.rstrip s) as [|c' r'] eqn:Hr.
  - destruct (Py.isspace c) eqn:Hc; [done|]. simpl. by rewrite Hc.
  - simpl in *. by rewrite IH.
Qed.

(** A trimmed string is empty or begins with a character that is no
    whitespace. *)
Lemma strip_head s :
  match Py.strip s with
  | EmptyString => True
  | String c _ => Py.isspace c = false
  end.
Proof.
  unfold Py.strip. pose proof (lstrip_head s) as H.
  destruct (Py.lstrip s) as [|c r]; [done|].
  destruct (rstrip_cons c r H) as [r' ->]. done.
Qed.

Lemma lstrip_fixed s :
  match s with EmptyString => True | String c _ => Py.isspace c = false end →
  Py.lstrip s = s.
Proof. destruct s as [|c r]; [done|]. simpl. by intros ->. Qed.

Lemma strip_idemp s : Py.strip (Py.strip s) = Py.strip s.
Proof.
  unfold Py.strip at 1. rewrite (lstrip_fixed _ (strip_head s)).
  unfold Py.strip. apply rstrip_idemp.
Qed.

(** A trimmed string does not end in whitespace. *)
Lemma rstrip_last s c : Py.endswith c (Py.rstrip s) = true → Py.isspace c = false.
Proof.
  induction s as [|a s IH]; simpl; [done|].
  destruct (Py.rstrip s) as [|a' r'] eqn:Hr.
  - destruct (Py.isspace a) eqn:Ha; simpl; [done|].
    intros ->%bool_decide_eq_true. done.
  - simpl in *. done.
Qed.

Lemma endswith_app_cons c a b :
  Py.endswith c (a +:+ String c b) = Py.endswith c (String c b).
Proof.
  induction a as [|x a IH]; [done|].
  rewrite append_cons, <-IH.
  destruct a as [|y a]; [done|]. by rewrite append_cons.
Qed.

(** ** More on loading the configuration *)

(** The three kinds of line and what each does. *)
Lemma Process_line_shape (self : BackupConfig) raw :
  let line := Py.strip raw in
  ((line = EmptyString ∨ Py.startswith "#" line = true) ∧
   Process_line self raw = Ok self) ∨
  (∃ key value,
     line = key +:+ " " +:+ value ∧
     stored_key key ∧ value ≠ EmptyString ∧
     Process_line self raw = Ok (<[key := PStr value]> self)) ∨
  (stored_path line ∧
   Process_line self raw =
     match self !! "FILEPATHS" with
     | Some (PList paths) => Ok (<["FILEPATHS" := PList (paths ++ [line])]> self)
     | Some (PStr _) => Raise (AttributeError "append")
     | None => Raise (AttributeError "FILEPATHS")
     end).
Proof.
  cbv zeta.
  pose proof (strip_head raw) as Hhead.
  assert (∀ c, Py.endswith c (Py.strip raw) = true → Py.isspace c = false)
    as Hlast by (intros c; apply rstrip_last).
  pose proof (strip_idemp raw) as Hidemp.
  rewrite Process_line_directive. unfold directive_of.
  remember (Py.strip raw) as line eqn:Hline'. clear Hline'.
  destruct (is_comment_or_blank line) eqn:Hskip.
  { left. split; [|done]. destruct line as [|c r]; [by left|by right]. }
  assert (line ≠ EmptyString ∧ Py.startswith "#" line = false) as [Hne Hhash]
    by (by destruct line).
  right. destruct (cut Py.SP line) as [[k v]|] eqn:Hcut.
  - left. exists k, v. destruct (cut_first _ _ _ _ Hcut) as [Hline Hk].
    split_and!; [done| |idtac|done].
    + split_and!; [|done|].
      * intros ->. rewrite Hline in Hhead. done.
      * destruct k as [|c k]; [done|]. rewrite Hline in Hhash. done.
    + intros ->. specialize (Hlast Py.SP).
      rewrite Hline, endswith_app_cons in Hlast. by specialize (Hlast eq_refl).
  - right. split; [|done]. split_and!; try done.
    pose proof (split1_cut Py.SP line) as H. rewrite Hcut in H. by destruct H.
Qed.

(** X1.  What one line does, read off its trimmed form: an empty line or a
    comment changes nothing; a line with a space stores, under the text
    before its first space (never empty, never a comment), all the text after
    that space (never empty, later spaces kept); any other line is appended
    as it stands, trimmed, to the path list. *)
Theorem Process_line_cases (self : BackupConfig) raw :
  let line := Py.strip raw in
  ((line = EmptyString ∨ Py.startswith "#" line = true) ∧
   Process_line self raw = Ok self) ∨
  (∃ key value,
     line = key +:+ " " +:+ value ∧
     stored_key key ∧ value ≠ EmptyString ∧
     Process_line self raw = Ok (<[key := PStr value]> self)) ∨
  (stored_path line ∧
   Process_line self raw =
     match self !! "FILEPATHS" with
     | Some (PList paths) => Ok (<["FILEPATHS" := PList (paths ++ [line])]> self)
     | Some (PStr _) => Raise (AttributeError "append")
     | None => Raise (AttributeError "FILEPATHS")
     end).
Proof. apply Process_line_shape. Qed.

(** [Process_line] keeps a configuration well loaded. *)
Lemma Process_line_well_loaded (self : BackupConfig) raw cfg :
  well_loaded self → Process_line self raw = Ok cfg → well_loaded cfg.
Proof.
  intros (Hfp & Hkeys & Hlists & Hvals).
  destruct (Process_line_shape self raw)
    as [[_ ->]|[(key & value & _ & Hkey & Hvalue & ->)|[Hpath ->]]].
  - by intros [= <-].
  - intros [= <-]. split_and!.
    + destruct (decide (key = "FILEPATHS")) as [->|Hne].
      * rewrite lookup_insert_eq. eauto.
      * by rewrite lookup_insert_ne.
    + intros k v. destruct (decide (key = k)) as [->|Hne]; [done|].
      rewrite lookup_insert_ne by done. apply Hkeys.
    + intros k l. destruct (decide (key = k)) as [->|Hne].
      * by rewrite lookup_insert_eq.
      * rewrite lookup_insert_ne by done. apply Hlists.
    + intros k v. destruct (decide (key = k)) as [->|Hne].
      * rewrite lookup_insert_eq. by intros [= <-].
      * rewrite lookup_insert_ne by done. apply Hvals.
  - destruct (self !! "FILEPATHS") as [[v|paths]|] eqn:Hp; [done| |done].
    intros [= <-]. split_and!.
    + rewrite lookup_insert_eq. eauto.
    + intros k v. destruct (decide ("FILEPATHS" = k)) as [<-|Hne].
      * intros _. by apply (Hkeys _ _ Hp).
      * rewrite lookup_insert_ne by done. apply Hkeys.
    + intros k l. destruct (decide ("FILEPATHS" = k)) as [<-|Hne].
      * rewrite lookup_insert_eq. intros [= <-]. split; [done|].
        apply Forall_app. split; [by apply (Hlists _ _ Hp)|by apply Forall_singleton].
      * rewrite lookup_insert_ne by done. apply Hlists.
    + intros k v. destruct (decide ("FILEPATHS" = k)) as [<-|Hne].
      * by rewrite lookup_insert_eq.
      * rewrite lookup_insert_ne by done. apply Hvals.
Qed.

Lemma Process_lines_well_loaded lines (self cfg : BackupConfig) :
  well_loaded self → Process_lines self lines = Ok cfg → well_loaded cfg.
Proof.
  revert self; induction lines as [|raw lines IH]; intros self Hwl; simpl.
  - by intros [= <-].
  - destruct (Process_line self raw) as [self'|e] eqn:Hl; simpl; [|done].
    apply IH. by apply (Process_line_well_loaded self raw).
Qed.

(** X2.  Whatever file is loaded, the configuration it yields has the path
    list attribute; no other attribute is ever a list; every stored path is
    trimmed, not empty, free of spaces and no comment; every attribute name
    is free of spaces, not empty and no comment; and no stored value is
    empty. *)
Theorem load_well_loaded content (cfg : BackupConfig) :
  load content = Ok cfg →
  is_Some (cfg !! "FILEPATHS") ∧
  (∀ k v, cfg !! k = Some v → stored_key k) ∧
  (∀ k l, cfg !! k = Some (PList l) → k = "FILEPATHS" ∧ Forall stored_path l) ∧
  (∀ k v, cfg !! k = Some (PStr v) → v ≠ EmptyString).
Proof.
  apply Process_lines_well_loaded. split_and!.
  - rewrite lookup_singleton_eq. eauto.
  - intros k v [<- _]%lookup_singleton_Some. done.
  - intros k l [<- [= <-]]%lookup_singleton_Some. done.
  - intros k v [<- [=]]%lookup_singleton_Some.
Qed.

Lemma load_well_loaded_witness :
  load (text Example.rc_lines) = Ok Example.cfg ∧
  ∀ k l, Example.cfg !! k = Some (PList l) → k = "FILEPATHS".
Proof.
  assert (load (text Example.rc_lines) = Ok Example.cfg) as H
    by (vm_compute; reflexivity).
  split; [exact H|]. intros k l Hk.
  exact (proj1 (proj1 (proj2 (proj2 (load_well_loaded _ _ H))) k l Hk)).
Defined.

(** X3.  An empty line or a comment may stand anywhere in the file: leaving
    it out changes neither the configuration loaded nor the failure. *)
Theorem comment_lines_ignored (self : BackupConfig) l1 raw l2 :
  Py.strip raw = EmptyString ∨ Py.startswith "#" (Py.strip raw) = true →
  Process_lines self (l1 ++ raw :: l2) = Process_lines self (l1 ++ l2).
Proof.
  intros Hskip. rewrite !Process_lines_app.
  destruct (Process_lines self l1) as [self'|e]; simpl; [|done].
  assert (Process_line self' raw = Ok self') as ->; [|done].
  unfold Process_line.
  destruct Hskip as [->|Hhash]; [done|].
  by destruct (Py.strip raw) as [|c r]; [|simpl in *; rewrite Hhash].
Qed.

Lemma comment_lines_ignored_witness :
  Py.startswith "#" (Py.strip "   # old settings") = true ∧
  Process_lines {["FILEPATHS" := PList []]}
    (["LOG_FILE /tmp/log"] ++ "   # old settings" :: ["/srv/"])
  = Process_lines {["FILEPATHS" := PList []]} (["LOG_FILE /tmp/log"] ++ ["/srv/"]).
Proof.
  split; [reflexivity|].
  apply comment_lines_ignored. right. reflexivity.
Defined.

Lemma Process_line_strip (self : BackupConfig) raw :
  Process_line self (Py.strip raw) = Process_line self raw.
Proof. unfold Process_line. by rewrite strip_idemp. Qed.

(** X4.  Only the trimmed form of each line counts: two files whose lines
    agree once trimmed (indentation, trailing blanks, the kind of line
    terminator) load alike. *)
Theorem load_ignores_surrounding_whitespace (self : BackupConfig) lines1 lines2 :
  Py.strip <$> lines1 = Py.strip <$> lines2 →
  Process_lines self lines1 = Process_lines self lines2.
Proof.
  revert self lines2. induction lines1 as [|raw1 lines1 IH];
    intros self [|raw2 lines2]; try done.
  rewrite !fmap_cons. intros [= Hraw Hrest]. simpl.
  rewrite <-(Process_line_strip self raw1), Hraw, Process_line_strip.
  destruct (Process_line self raw2) as [self'|e]; simpl; [by apply IH|done].
Qed.

Lemma load_ignores_surrounding_whitespace_witness :
  let CRLF := String "013" (String "010" EmptyString) in
  let lines1 := ["  LOG_FILE /tmp/log  " +:+ CRLF; String "009" "/srv/" +:+ CRLF] in
  let lines2 := ["LOG_FILE /tmp/log"; "/srv/"] in
  Py.strip <$> lines1 = Py.strip <$> lines2 ∧
  Process_lines {["FILEPATHS" := PList []]} lines1
  = Process_lines {["FILEPATHS" := PList []]} lines2.
Proof.
  intros CRLF lines1 lines2.
  assert (Py.strip <$> lines1 = Py.strip <$> lines2) as H by reflexivity.
  split; [exact H|]. exact (load_ignores_surrounding_whitespace _ _ _ H).
Defined.

(** X5.  For files without the key [FILEPATHS], what is loaded depends only
    on the path lines in their order and on the last value given to each
    key: the order of the key/value lines among themselves and among the path
    lines does not matter. *)
Theorem load_order_of_keys_irrelevant content1 content2 :
  "FILEPATHS" ∉ (key_values (directives content1)).*1 →
  "FILEPATHS" ∉ (key_values (directives content2)).*1 →
  path_entries (directives content1) = path_entries (directives content2) →
  (∀ k, last_value k (key_values (directives content1))
        = last_value k (key_values (directives content2))) →
  load content1 = load content2.
Proof.
  intros H1 H2 Hpaths Hvalues. unfold load, directives in *.
  destruct (Process_lines_separate (Py.readlines content1)
              {["FILEPATHS" := PList []]} []) as (cfg1 & -> & Hf1 & Hv1 & _);
    [done|done|].
  destruct (Process_lines_separate (Py.readlines content2)
              {["FILEPATHS" := PList []]} []) as (cfg2 & -> & Hf2 & Hv2 & _);
    [done|done|].
  f_equal. apply map_eq. intros k.
  destruct (decide (k = "FILEPATHS")) as [->|Hne].
  - by rewrite Hf1, Hf2, Hpaths.
  - by rewrite (Hv1 k Hne), (Hv2 k Hne), Hvalues.
Qed.

Lemma load_order_of_keys_irrelevant_witness :
  let content1 := text ["A 1"; "/srv/"; "B 2"; "A 3"; "/etc/"] in
  let content2 := text ["/srv/"; "# reordered"; "B 2"; "/etc/"; "A 3"] in
  path_entries (directives content1) = path_entries (directives content2) ∧
  load content1 = load content2.
Proof.
  intros content1 content2.
  assert (path_entries (directives content1) = path_entries (directives content2))
    as Hp by reflexivity.
  split; [exact Hp|].
  refine (load_order_of_keys_irrelevant content1 content2 _ _ Hp _).
  - apply (bool_decide_unpack _). vm_compute. exact I.
  - apply (bool_decide_unpack _). vm_compute. exact I.
  - intros k.
    replace (key_values (directives content1))
      with [("A", "1"); ("B", "2"); ("A", "3")] by (vm_compute; reflexivity).
    replace (key_values (directives content2))
      with [("B", "2"); ("A", "3")] by (vm_compute; reflexivity).
    simpl. destruct (decide ("A" = k)), (decide ("B" = k)); reflexivity.
Defined.

(** ** More on the backup run *)

Section MoreRunning.
Context {W : Type} `{!Host W}.
Implicit Types (cfg : BackupConfig) (st : State W).

(** X6.  Past the pre-mount no exit status is forgiven.  When the [encfs]
    command exits with any non-zero status, 32 included, the run ends with
    its [ShellError] and nothing is synced; and when the final [fusermount]
    fails after all syncs succeeded, the run ends with that [ShellError]. *)
Theorem later_failures_are_fatal cfg st :
  (∀ st1 root password decrypted proc w,
     premount_step cfg st = (Ok tt, st1) →
     cfg !! "ENCRYPTED_MOUNTPOINT" = Some (PStr root) →
     cfg !! "ENCFS_PASSWORD" = Some password →
     cfg !! "DECRYPTED_MOUNTPOINT" = Some decrypted →
     let cmd := encfs_command (py_str password) (Py.path_join root "current")
                  (py_str decrypted) in
     popen cmd (world st1) = (proc, w) →
     returncode proc ≠ 0 →
     RunBackup cfg st
     = (Raise (ShellError cmd None (returncode proc) (stdout proc) (stderr proc)),
        MkState w (journal st1 ++ [Spawn cmd]))) ∧
  (∀ st1 decrypted proc w,
     (premount_step cfg ;; encfs_step cfg ;; rsync_step cfg) st = (Ok tt, st1) →
     should_unmount cfg = true →
     cfg !! "DECRYPTED_MOUNTPOINT" = Some decrypted →
     let cmd := fusermount_command (py_str decrypted) in
     popen cmd (world st1) = (proc, w) →
     returncode proc ≠ 0 →
     RunBackup cfg st
     = (Raise (ShellError cmd None (returncode proc) (stdout proc) (stderr proc)),
        MkState w (journal st1 ++ [Spawn cmd]))).
Proof.
  split.
  - intros st1 root password decrypted proc w Hpre Hr Hp Hd cmd Hrun Hrc.
    subst cmd. unfold RunBackup. rewrite (bind_ok _ _ _ _ _ Hpre). apply bind_raise.
    rewrite (encfs_step_command _ _ _ _ _ Hr Hp Hd), (Shell_exit _ _ _ _ Hrun).
    by destruct (decide _).
  - intros st1 decrypted proc w Hsync Hun Hd cmd Hrun Hrc.
    subst cmd. unfold RunBackup. rewrite seq_assoc4, (bind_ok _ _ _ _ _ Hsync).
    unfold unmount_step. rewrite Hun. read_attr Hd.
    rewrite (Shell_exit _ _ _ _ Hrun). by destruct (decide _).
Qed.

(** X7.  A mount directive that is missing is reported by name when the run
    reaches it, after the pre-mount and before the [encfs] command: the
    first of mount point, password and decrypted mount point that is absent
    ends the run with its attribute error, in the state the pre-mount
    left. *)
Theorem missing_mount_directive cfg st st1 :
  premount_step cfg st = (Ok tt, st1) →
  (cfg !! "ENCRYPTED_MOUNTPOINT" = None →
   RunBackup cfg st = (Raise (AttributeError "ENCRYPTED_MOUNTPOINT"), st1)) ∧
  (∀ root,
     cfg !! "ENCRYPTED_MOUNTPOINT" = Some (PStr root) →
     cfg !! "ENCFS_PASSWORD" = None →
     RunBackup cfg st = (Raise (AttributeError "ENCFS_PASSWORD"), st1)) ∧
  (∀ root password,
     cfg !! "ENCRYPTED_MOUNTPOINT" = Some (PStr root) →
     cfg !! "ENCFS_PASSWORD" = Some password →
     cfg !! "DECRYPTED_MOUNTPOINT" = None →
     RunBackup cfg st = (Raise (AttributeError "DECRYPTED_MOUNTPOINT"), st1)).
Proof.
  intros Hpre. unfold RunBackup. rewrite (bind_ok _ _ _ _ _ Hpre).
  unfold encfs_step. split_and!.
  - intros Hnone. apply bind_raise.
    by rewrite (bind_raise _ _ _ _ _ (getattr_none _ _ _ Hnone)).
  - intros root Hr Hnone. apply bind_raise. read_attr Hr.
    unfold os_path_join. simpl. unfold mbind at 1, M_bind at 1, mret, M_ret.
    by rewrite (bind_raise _ _ _ _ _ (getattr_none _ _ _ Hnone)).
  - intros root password Hr Hp Hnone. apply bind_raise. read_attr Hr.
    unfold os_path_join. simpl. unfold mbind at 1, M_bind at 1, mret, M_ret.
    read_attr Hp.
    by rewrite (bind_raise _ _ _ _ _ (getattr_none _ _ _ Hnone)).
Qed.

(** X8.  The sync flags are read once per path.  With an empty path list
    their absence goes unnoticed and the sync step does nothing; with a path
    to sync and no flags the step ends with the attribute error before any
    [rsync] is issued. *)
Theorem RSYNC_FLAGS_read_per_path cfg st paths :
  cfg !! "FILEPATHS" = Some paths →
  cfg !! "RSYNC_FLAGS" = None →
  rsync_step cfg st
  = (match iterate paths with
     | [] => Ok tt
     | _ :: _ => Raise (AttributeError "RSYNC_FLAGS")
     end, st).
Proof.
  intros Hp Hf. unfold rsync_step. read_attr Hp.
  destruct (iterate paths) as [|p rest]; [done|]. simpl.
  apply bind_raise. unfold rsync_one.
  by rewrite (bind_raise _ _ _ _ _ (getattr_none _ _ _ Hf)).
Qed.

Lemma premount_step_ok_inv cfg st st1 :
  premount_step cfg st = (Ok tt, st1) →
  ∃ dev proc,
    cfg !! "PRE_MOUNT" = Some dev ∧
    popen ("mount " +:+ py_str dev) (world st) = (proc, world st1) ∧
    (returncode proc = 0 ∨ returncode proc = 32) ∧
    journal st1 = journal st ++ [Spawn ("mount " +:+ py_str dev)].
Proof.
  unfold premount_step, try_except.
  destruct (cfg !! "PRE_MOUNT") as [dev|]; [|done].
  unfold Shell. destruct (popen _ (world st)) as [proc w] eqn:Hp.
  destruct (decide (returncode proc = 0)).
  - intros [= <-]. exists dev, proc. eauto.
  - destruct (decide (returncode proc ≠ 32)) as [|H32]; [done|].
    intros [= <-]. exists dev, proc. split_and!; try done.
    right. by destruct (decide (returncode proc = 32)).
Qed.

Lemma encfs_step_ok_inv cfg st st2 :
  encfs_step cfg st = (Ok tt, st2) →
  ∃ root password decrypted,
    cfg !! "ENCRYPTED_MOUNTPOINT" = Some (PStr root) ∧
    cfg !! "ENCFS_PASSWORD" = Some password ∧
    cfg !! "DECRYPTED_MOUNTPOINT" = Some decrypted ∧
    journal st2
    = journal st ++ [Spawn (encfs_command (py_str password)
                              (Py.path_join root "current") (py_str decrypted))].
Proof.
  intros Hrun.
  destruct (cfg !! "ENCRYPTED_MOUNTPOINT") as [[root|l]|] eqn:Hr.
  - destruct (cfg !! "ENCFS_PASSWORD") as [password|] eqn:Hp.
    + destruct (cfg !! "DECRYPTED_MOUNTPOINT") as [decrypted|] eqn:Hd.
      * rewrite (encfs_step_command _ _ _ _ _ Hr Hp Hd) in Hrun.
        apply Shell_ok_inv in Hrun as (proc & _ & _ & Hj). eauto 8.
      * unfold encfs_step in Hrun. read_attr_in Hr Hrun.
        unfold os_path_join in Hrun. simpl in Hrun.
        unfold mbind at 1, M_bind at 1, mret, M_ret in Hrun.
        read_attr_in Hp Hrun.
        by rewrite (bind_raise _ _ _ _ _ (getattr_none _ _ _ Hd)) in Hrun.
    + unfold encfs_step in Hrun. read_attr_in Hr Hrun.
      unfold os_path_join in Hrun. simpl in Hrun.
      unfold mbind at 1, M_bind at 1, mret, M_ret in Hrun.
      by rewrite (bind_raise _ _ _ _ _ (getattr_none _ _ _ Hp)) in Hrun.
  - unfold encfs_step in Hrun. read_attr_in Hr Hrun. done.
  - unfold encfs_step in Hrun.
    by rewrite (bind_raise _ _ _ _ _ (getattr_none _ _ _ Hr)) in Hrun.
Qed.

Lemma rsync_loop_ok_inv cfg l st st' :
  for_each l (rsync_one cfg) st = (Ok tt, st') →
  ∃ cmds,
    Forall2 (λ f c, ∃ flags decrypted,
               cfg !! "RSYNC_FLAGS" = Some flags ∧
               cfg !! "DECRYPTED_MOUNTPOINT" = Some decrypted ∧
               c = rsync_command f (py_str flags) (py_str decrypted)) l cmds ∧
    journal st' = journal st ++ (Spawn <$> cmds).
Proof.
  revert st; induction l as [|f l IH]; intros st; simpl.
  - intros [= <-]. exists []. split; [constructor|by rewrite app_nil_r].
  - intros ([] & st1 & Hone & Hrest)%bind_ok_inv.
    destruct (IH _ Hrest) as (cmds & Hall & Hj).
    destruct (cfg !! "RSYNC_FLAGS") as [flags|] eqn:Hf; last first.
    { unfold rsync_one in Hone.
      by rewrite (bind_raise _ _ _ _ _ (getattr_none _ _ _ Hf)) in Hone. }
    destruct (cfg !! "DECRYPTED_MOUNTPOINT") as [decrypted|] eqn:Hd; last first.
    { unfold rsync_one in Hone. read_attr_in Hf Hone.
      by rewrite (bind_raise _ _ _ _ _ (getattr_none _ _ _ Hd)) in Hone. }
    rewrite (rsync_one_command _ _ _ _ _ Hf Hd) in Hone.
    apply Shell_ok_inv in Hone as (proc & _ & _ & Hj1).
    exists (rsync_command f (py_str flags) (py_str decrypted) :: cmds).
    split; [constructor; eauto|].
    rewrite Hj, Hj1, <-app_assoc. done.
Qed.

(** X9.  A backup run that succeeds had every directive it read configured,
    wrote no log record, and issued exactly these commands: the pre-mount,
    the [encfs] mount, one [rsync] per path in list order, and the unmount if
    it is wanted. *)
Theorem RunBackup_success cfg st st' :
  RunBackup cfg st = (Ok tt, st') →
  ∃ dev root password decrypted paths cmds,
    cfg !! "PRE_MOUNT" = Some dev ∧
    cfg !! "ENCRYPTED_MOUNTPOINT" = Some (PStr root) ∧
    cfg !! "ENCFS_PASSWORD" = Some password ∧
    cfg !! "DECRYPTED_MOUNTPOINT" = Some decrypted ∧
    cfg !! "FILEPATHS" = Some paths ∧
    Forall2 (λ f c, ∃ flags,
               cfg !! "RSYNC_FLAGS" = Some flags ∧
               c = rsync_command f (py_str flags) (py_str decrypted))
      (iterate paths) cmds ∧
    journal st'
    = journal st
      ++ [Spawn ("mount " +:+ py_str dev);
          Spawn (encfs_command (py_str password) (Py.path_join root "current")
                   (py_str decrypted))]
      ++ (Spawn <$> cmds)
      ++ (if should_unmount cfg
          then [Spawn (fusermount_command (py_str decrypted))] else []).
Proof.
  unfold RunBackup.
  intros ([] & st1 & Hpre & Hrun)%bind_ok_inv.
  apply bind_ok_inv in Hrun as ([] & st2 & Henc & Hrun).
  apply bind_ok_inv in Hrun as ([] & st3 & Hsync & Hun).
  apply premount_step_ok_inv in Hpre as (dev & proc & Hdev & _ & _ & Hj1).
  apply encfs_step_ok_inv in Henc as (root & password & decrypted & Hr & Hp & Hd & Hj2).
  unfold rsync_step in Hsync.
  destruct (cfg !! "FILEPATHS") as [paths|] eqn:Hpaths; last first.
  { by rewrite (bind_raise _ _ _ _ _ (getattr_none _ _ _ Hpaths)) in Hsync. }
  read_attr_in Hpaths Hsync.
  apply rsync_loop_ok_inv in Hsync as (cmds & Hall & Hj3).
  exists dev, root, password, decrypted, paths, cmds. split_and!; try done.
  - eapply Forall2_impl; [exact Hall|].
    intros f c (flags & decrypted' & Hf & Hd' & ->).
    exists flags. split; [done|]. congruence.
  - unfold unmount_step in Hun. destruct (should_unmount cfg).
    + read_attr_in Hd Hun. apply Shell_ok_inv in Hun as (proc' & _ & _ & Hj4).
      rewrite Hj4, Hj3, Hj2, Hj1, <-!app_assoc. done.
    + injection Hun as <-. rewrite Hj3, Hj2, Hj1, <-!app_assoc, app_nil_r. done.
Qed.

End MoreRunning.

Lemma later_failures_are_fatal_witness :
  let cmd := "echo 'secret' | encfs -S /enc/current /dec" in
  let w := Example.host (Example.failing cmd 32) in
  RunBackup Example.cfg (Sim.start w)
  = (Raise (ShellError cmd None 32 EmptyString EmptyString),
     MkState w [Spawn "mount /dev/sdb1"; Spawn cmd]).
Proof.
  intros cmd w.
  refine (proj1 (later_failures_are_fatal Example.cfg (Sim.start w))
            (MkState w [Spawn "mount /dev/sdb1"]) "/enc" (PStr "secret")
            (PStr "/dec") (Sim.exited 32) w _ _ _ _ _ _);
    try (vm_compute; reflexivity).
  discriminate.
Defined.

Lemma missing_mount_directive_witness :
  let cfg : BackupConfig := delete "ENCFS_PASSWORD" Example.cfg in
  let w := Example.host Example.all_fine in
  let st1 := MkState w [Spawn "mount /dev/sdb1"] in
  premount_step cfg (Sim.start w) = (Ok tt, st1) ∧
  RunBackup cfg (Sim.start w) = (Raise (AttributeError "ENCFS_PASSWORD"), st1).
Proof.
  intros cfg w st1.
  assert (premount_step cfg (Sim.start w) = (Ok tt, st1)) as Hpre
    by (vm_compute; reflexivity).
  split; [exact Hpre|].
  refine (proj1 (proj2 (missing_mount_directive cfg (Sim.start w) st1 Hpre))
            "/enc" _ _); vm_compute; reflexivity.
Defined.

Lemma RSYNC_FLAGS_read_per_path_witness :
  let bare : BackupConfig := {["FILEPATHS" := PList []]} in
  let one : BackupConfig := {["FILEPATHS" := PList ["/srv/"]]} in
  let st := Sim.start (Example.host Example.all_fine) in
  rsync_step bare st = (Ok tt, st) ∧
  rsync_step one st = (Raise (AttributeError "RSYNC_FLAGS"), st).
Proof.
  intros bare one st. split.
  - exact (RSYNC_FLAGS_read_per_path bare st (PList []) eq_refl eq_refl).
  - exact (RSYNC_FLAGS_read_per_path one st (PList ["/srv/"]) eq_refl eq_refl).
Defined.

Lemma RunBackup_success_witness :
  let st := Sim.start (Example.host Example.all_fine) in
  let st' := (RunBackup Example.cfg st).2 in
  RunBackup Example.cfg st = (Ok tt, st') ∧
  ∃ cmds, journal st'
          = [Spawn "mount /dev/sdb1";
             Spawn "echo 'secret' | encfs -S /enc/current /dec"]
            ++ (Spawn <$> cmds) ++ [Spawn "fusermount -u /dec"].
Proof.
  intros st st'.
  assert (RunBackup Example.cfg st = (Ok tt, st')) as Hrun
    by (vm_compute; reflexivity).
  split; [exact Hrun|].
  destruct (RunBackup_success Example.cfg st st' Hrun)
    as (dev & root & password & decrypted & paths & cmds & _).
  exists ["rsync /srv/data/ -a /dec"; "rsync /etc/fstab -a /dec";
          "rsync /home/greg/ -a /dec"].
  vm_compute. reflexivity.
Defined.

(** ** More on the depth table *)

Lemma scan_snapshots_app frequency l1 l2 total :
  scan_snapshots frequency (l1 ++ l2) total
  = (total' ← scan_snapshots frequency l1 total;
     scan_snapshots frequency l2 total').
Proof.
  revert total; induction l1 as [|item l1 IH]; intros total; simpl; [done|].
  destruct (Py.split "=" item) as [|k [|v [|? ?]]]; try done.
  destruct (decide (k = frequency)); [|done].
  destruct (Py.int v); done.
Qed.

(** Entries that split in two, and whose count parses where the key is the
    frequency asked for, are scanned without an error. *)
Lemma scan_snapshots_readable frequency items total :
  Forall (λ item, ∃ k v, Py.split "=" item = [k; v] ∧
                         (k = frequency → is_Some (Py.int v))) items →
  ∃ total', scan_snapshots frequency items total = Ok total'.
Proof.
  intros Hall. revert total.
  induction Hall as [|item items (k & v & Hsplit & Hint) _ IH]; intros total;
    simpl; [eauto|].
  rewrite Hsplit. destruct (decide (k = frequency)) as [Hk|]; [|done].
  destruct (Hint Hk) as [n ->]. done.
Qed.

(** X10.  The last entry for a frequency decides its depth: entries before
    it only have to be readable, entries for other frequencies after it may
    carry any count, numeric or not. *)
Theorem scan_snapshots_last_entry frequency before item value n after total :
  Forall (λ item, ∃ k v, Py.split "=" item = [k; v] ∧
                         (k = frequency → is_Some (Py.int v))) before →
  Py.split "=" item = [frequency; value] →
  Py.int value = Some n →
  Forall (λ item, ∃ k v, Py.split "=" item = [k; v] ∧ k ≠ frequency) after →
  scan_snapshots frequency (before ++ item :: after) total = Ok n.
Proof.
  intros Hbefore Hitem Hint Hafter. rewrite scan_snapshots_app.
  destruct (scan_snapshots_readable _ _ total Hbefore) as [total' ->]. simpl.
  rewrite Hitem. destruct (decide (frequency = frequency)); [|done].
  rewrite Hint. by apply scan_snapshots_absent.
Qed.

Lemma scan_snapshots_last_entry_witness :
  scan_snapshots "daily"
    (["daily=7"; "hourly=2"] ++ "daily= 3" :: ["weekly=many"]) 0 = Ok 3.
Proof.
  apply (scan_snapshots_last_entry "daily" _ _ " 3" 3); try reflexivity.
  - repeat constructor; eexists _, _; (split; [reflexivity|]); intros; eauto.
  - repeat constructor; eexists _, _; (split; [reflexivity|discriminate]).
Defined.

Section MoreRotation.
Context {W : Type} `{!Host W}.
Implicit Types (cfg : BackupConfig) (st : State W).

(** X11.  One unreadable entry spoils the whole table, for every frequency:
    when an entry does not consist of exactly one key and one count (as the
    empty entry after a trailing comma), or the count of the frequency asked
    for is no integer, the rotation raises [ValueError] before any command,
    even if an earlier entry configures that frequency well. *)
Theorem unreadable_entry_fails_rotation cfg frequency table before bad after st :
  cfg !! "SNAPSHOTS" = Some (PStr table) →
  Py.split "," table = before ++ bad :: after →
  Forall (λ item, ∃ k v, Py.split "=" item = [k; v] ∧
                         (k = frequency → is_Some (Py.int v))) before →
  (length (Py.split "=" bad) ≠ 2%nat →
   MakeSnapshot cfg frequency st = (Raise (ValueError "unpack"), st)) ∧
  (∀ value, Py.split "=" bad = [frequency; value] → Py.int value = None →
            MakeSnapshot cfg frequency st = (Raise (ValueError "int"), st)).
Proof.
  intros Ht Hsplit Hbefore.
  assert (∀ e, (∀ total, scan_snapshots frequency (bad :: after) total = Raise e) →
               MakeSnapshot cfg frequency st = (Raise e, st)) as Hfail.
  { intros e He. unfold MakeSnapshot.
    rewrite (bind_ok _ _ _ _ _ (snapshots_pairs_table _ _ _ Ht)).
    apply bind_raise. unfold lift. rewrite Hsplit, scan_snapshots_app.
    destruct (scan_snapshots_readable _ _ 0 Hbefore) as [total' ->]. simpl.
    by rewrite <-(He total'). }
  split.
  - intros Hlen. apply Hfail. intros total. simpl.
    by destruct (Py.split "=" bad) as [|k [|v [|? ?]]].
  - intros value Hbad Hint. apply Hfail. intros total. simpl.
    rewrite Hbad. destruct (decide (frequency = frequency)); [|done].
    by rewrite Hint.
Qed.

End MoreRotation.

Lemma unreadable_entry_fails_rotation_witness :
  let cfg : BackupConfig := <["SNAPSHOTS" := PStr "hourly=2,daily=3,"]> Example.cfg in
  let st := Sim.start (Example.host Example.all_fine) in
  Py.split "," "hourly=2,daily=3," = ["hourly=2"; "daily=3"] ++ EmptyString :: [] ∧
  MakeSnapshot cfg "daily" st = (Raise (ValueError "unpack"), st).
Proof.
  intros cfg st. split; [reflexivity|].
  refine (proj1 (unreadable_entry_fails_rotation cfg "daily" "hourly=2,daily=3,"
                   ["hourly=2"; "daily=3"] EmptyString [] st _ eq_refl _) _).
  - apply lookup_insert_eq.
  - repeat constructor; eexists _, _; (split; [reflexivity|]); intros; eauto.
  - discriminate.
Defined.

(** ** More on the rotation *)

Section RotationCommands.
Context {W : Type} `{!Host W}.
Implicit Types (cfg : BackupConfig) (st : State W).

Lemma bind_inv {A B} (m : M W A) (f : A → M W B) st r st' :
  (m ≫= f) st = (r, st') →
  (∃ e, m st = (Raise e, st') ∧ r = Raise e) ∨
  (∃ a st1, m st = (Ok a, st1) ∧ f a st1 = (r, st')).
Proof.
  unfold mbind, M_bind. destruct (m st) as [[a|e] st1].
  - right. eauto.
  - intros [= <- <-]. left. eauto.
Qed.

Lemma Shell_journal cmd st r st' :
  Shell cmd st = (r, st') → journal st' = journal st ++ [Spawn cmd].
Proof.
  unfold Shell. destruct (popen cmd (world st)) as [proc w].
  by destruct (decide _); intros [= <- <-].
Qed.

Lemma root_join_str cfg dir name st :
  cfg !! "ENCRYPTED_MOUNTPOINT" = Some (PStr dir) →
  (root ← getattr cfg "ENCRYPTED_MOUNTPOINT"; os_path_join root name) st
  = (Ok (Py.path_join dir name), st).
Proof.
  intros Hr. read_attr Hr. unfold os_path_join, Py.path_join.
  by destruct (Py.startswith "/" name).
Qed.

Lemma snapshots_pairs_state cfg st r st' :
  snapshots_pairs cfg st = (r, st') → st' = st.
Proof.
  unfold snapshots_pairs, getattr, mbind, M_bind, mret, M_ret, raise.
  destruct (cfg !! "SNAPSHOTS") as [[?|?]|]; by intros [= _ <-].
Qed.

Lemma py_assert_state cond msg st r st' :
  py_assert (W:=W) cond msg st = (r, st') → st' = st.
Proof.
  unfold py_assert, mret, M_ret, raise.
  destruct cond; [by intros [= _ <-]|].
  destruct msg as [[?|?]|]; by intros [= _ <-].
Qed.

Lemma shift_one_journal cfg dir frequency ii st r st' :
  cfg !! "ENCRYPTED_MOUNTPOINT" = Some (PStr dir) →
  shift_one cfg frequency ii st = (r, st') →
  ∃ events, journal st' = journal st ++ events ∧
            events `sublist_of` [Spawn (move_command dir frequency ii)].
Proof.
  intros Hr Hrun. unfold shift_one in Hrun.
  rewrite <-bind_assoc, (bind_ok _ _ _ _ _ (root_join_str _ _ _ _ Hr)) in Hrun.
  rewrite <-bind_assoc, (bind_ok _ _ _ _ _ (root_join_str _ _ _ _ Hr)) in Hrun.
  unfold os_path_exists in Hrun. unfold mbind at 1, M_bind at 1 in Hrun.
  destruct (path_exists _ (world st)).
  - apply Shell_journal in Hrun. eauto.
  - injection Hrun as <- <-. exists []. rewrite app_nil_r.
    split; [done|]. apply sublist_nil_l.
Qed.

Lemma shift_loop_journal cfg dir frequency l st r st' :
  cfg !! "ENCRYPTED_MOUNTPOINT" = Some (PStr dir) →
  for_each l (shift_one cfg frequency) st = (r, st') →
  ∃ events, journal st' = journal st ++ events ∧
            events `sublist_of`
              ((λ ii, Spawn (move_command dir frequency ii)) <$> l).
Proof.
  intros Hr. revert st; induction l as [|ii l IH]; intros st; simpl.
  - intros [= <- <-]. exists []. by rewrite app_nil_r.
  - intros [(e & Hone & ->)|([] & st1 & Hone & Hrest)]%bind_inv.
    + destruct (shift_one_journal _ _ _ _ _ _ _ Hr Hone) as (ev & Hj & Hsub).
      exists ev. split; [done|].
      change (Spawn (move_command dir frequency ii) :: ?x)
        with ([Spawn (move_command dir frequency ii)] ++ x).
      by apply sublist_inserts_r.
    + destruct (shift_one_journal _ _ _ _ _ _ _ Hr Hone) as (ev1 & Hj1 & Hsub1).
      destruct (IH _ Hrest) as (ev2 & Hj2 & Hsub2).
      exists (ev1 ++ ev2). split; [by rewrite Hj2, Hj1, <-app_assoc|].
      change (Spawn (move_command dir frequency ii) :: ?x)
        with ([Spawn (move_command dir frequency ii)] ++ x).
      by apply sublist_app.
Qed.

(** X12.  Whatever the host does, a rotation either raises with nothing
    touched or runs commands of one fixed schedule, in its order: first the
    removal of the oldest generation, then some of the moves from the oldest
    generation down (each at most once, none for a generation outside the
    depth), and last, only if it got that far, the copy of [current].  A
    rotation that returns normally did run the removal and the copy; one
    that stops before the copy raises. *)
Theorem MakeSnapshot_commands cfg dir frequency st r st' :
  cfg !! "ENCRYPTED_MOUNTPOINT" = Some (PStr dir) →
  MakeSnapshot cfg frequency st = (r, st') →
  (st' = st ∧ ∃ e, r = Raise e) ∨
  ∃ total moved rest,
    0 < total ∧
    journal st'
    = journal st
      ++ Spawn (rm_command (Py.path_join dir (generation frequency total)))
      :: moved ++ rest ∧
    moved `sublist_of` all_moves dir frequency total ∧
    (rest = [] ∧ (∃ e, r = Raise e) ∨
     rest = [Spawn (cp_command (Py.path_join dir "current")
                      (Py.path_join dir (generation frequency 1)))]).
Proof.
  intros Hr Hrun. unfold MakeSnapshot in Hrun.
  apply bind_inv in Hrun as [(e & Hpairs & ->)|(pairs & st0 & Hpairs & Hrun)].
  { left. split; [by apply snapshots_pairs_state in Hpairs|eauto]. }
  apply snapshots_pairs_state in Hpairs as ->.
  apply bind_inv in Hrun as [(e & Hscan & ->)|(total & st0 & Hscan & Hrun)].
  { left. split; [by injection Hscan|eauto]. }
  assert (st0 = st) as -> by (by injection Hscan).
  apply bind_inv in Hrun as [(e & Hassert & ->)|([] & st0 & Hassert & Hrun)].
  { left. split; [by apply py_assert_state in Hassert|eauto]. }
  pose proof (py_assert_state _ _ _ _ _ Hassert) as ->.
  unfold py_assert in Hassert.
  destruct (bool_decide (total > 0)) eqn:Hpos; last first.
  { by destruct (name ← frequency_type; Ok _). }
  apply bool_decide_eq_true in Hpos.
  right. exists total.
  rewrite <-bind_assoc, (bind_ok _ _ _ _ _ (root_join_str _ _ _ _ Hr)) in Hrun.
  apply bind_inv in Hrun as [(e & Hrm & ->)|([] & st1 & Hrm & Hrun)].
  { apply Shell_journal in Hrm. exists [], [].
    split_and!; try done; [lia|apply sublist_nil_l|left; eauto]. }
  apply Shell_journal in Hrm.
  apply bind_inv in Hrun as [(e & Hloop & ->)|([] & st2 & Hloop & Hrun)].
  { destruct (shift_loop_journal _ _ _ _ _ _ _ Hr Hloop) as (moved & Hj & Hsub).
    exists moved, []. split_and!; try done; [lia| |left; eauto].
    by rewrite Hj, Hrm, app_nil_r, <-app_assoc. }
  destruct (shift_loop_journal _ _ _ _ _ _ _ Hr Hloop) as (moved & Hj & Hsub).
  rewrite <-bind_assoc, (bind_ok _ _ _ _ _ (root_join_str _ _ _ _ Hr)) in Hrun.
  rewrite <-bind_assoc, (bind_ok _ _ _ _ _ (root_join_str _ _ _ _ Hr)) in Hrun.
  apply Shell_journal in Hrun.
  exists moved, [Spawn (cp_command (Py.path_join dir "current")
                          (Py.path_join dir (generation frequency 1)))].
  split_and!; try done; [lia| |by right].
  by rewrite Hrun, Hj, Hrm, <-!app_assoc.
Qed.

End RotationCommands.

Lemma MakeSnapshot_commands_witness :
  let st := Sim.start (Example.host Example.all_fine) in
  let st' := (MakeSnapshot Example.cfg "daily" st).2 in
  Example.cfg !! "ENCRYPTED_MOUNTPOINT" = Some (PStr "/enc") ∧
  MakeSnapshot Example.cfg "daily" st = (Ok tt, st') ∧
  journal st' = [Spawn "rm -rf /enc/daily.3";
                 Spawn "mv /enc/daily.2 /enc/daily.3";
                 Spawn "mv /enc/daily.1 /enc/daily.2";
                 Spawn "cp -al /enc/current /enc/daily.1"] ∧
  ∃ total moved,
    0 < total ∧
    journal st'
    = Spawn (rm_command (Py.path_join "/enc" (generation "daily" total)))
      :: moved
      ++ [Spawn (cp_command (Py.path_join "/enc" "current")
                   (Py.path_join "/enc" (generation "daily" 1)))] ∧
    moved `sublist_of` all_moves "/enc" "daily" total.
Proof.
  intros st st'.
  assert (Example.cfg !! "ENCRYPTED_MOUNTPOINT" = Some (PStr "/enc")) as Hr
    by (vm_compute; reflexivity).
  assert (MakeSnapshot Example.cfg "daily" st = (Ok tt, st')) as Hrun
    by (vm_compute; reflexivity).
  split_and!; [exact Hr|exact Hrun|vm_compute; reflexivity|].
  destruct (MakeSnapshot_commands Example.cfg "/enc" "daily" st (Ok tt) st' Hr Hrun)
    as [[_ [e He]]|(total & moved & rest & Hpos & Hj & Hsub & Hrest)];
    [discriminate He|].
  destruct Hrest as [[_ [e He]]| ->]; [discriminate He|].
  exists total, moved. auto.
Defined.

(** ** Rotations and the other frequencies *)

Lemma pretty_N_go_all_chars (ok : ascii → bool) x s :
  (∀ y, ok (pretty_N_char y) = true) →
  all_chars ok s = true → all_chars ok (pretty_N_go x s) = true.
Proof.
  intros Hok. revert s. induction (N.lt_wf_0 x) as [x _ IH]; intros s Hs.
  assert (x = 0 ∨ 0 < x)%N as [->|?] by lia.
  - by rewrite pretty_N_go_0.
  - rewrite pretty_N_go_step by done. apply IH; [by apply N.div_lt|].
    simpl. by rewrite Hs, Hok.
Qed.

Lemma pretty_Z_digits (i : Z) : 0 < i → all_chars Py.isdigit (pretty i) = true.
Proof.
  destruct i as [|p|p]; [lia| |lia]. intros _.
  unfold pretty, pretty_Z, pretty, pretty_positive, pretty, pretty_N.
  rewrite decide_False by done. apply pretty_N_go_all_chars; [|done].
  intros y. unfold pretty_N_char. by repeat case_match.
Qed.

Lemma digits_no_dot s : all_chars Py.isdigit s = true → Py.contains "." s = false.
Proof.
  induction s as [|c s IH]; simpl; [done|].
  intros [Hc Hs]%andb_prop. destruct (decide (c = "."%char)) as [->|]; [done|].
  by apply IH.
Qed.

(** Two names that agree from their last dot on agree before it. *)
Lemma append_dot_inj s1 d1 s2 d2 :
  Py.contains "." d1 = false → Py.contains "." d2 = false →
  s1 +:+ String "." d1 = s2 +:+ String "." d2 → s1 = s2.
Proof.
  intros H1 H2. revert s2; induction s1 as [|c s1 IH]; intros [|c' s2];
    rewrite ?append_cons; simpl.
  - done.
  - intros [= <- ->]. by rewrite contains_app_r in H1.
  - intros [= -> <-]. by rewrite contains_app_r in H2.
  - intros [= <- Heq]. f_equal. by apply IH.
Qed.

Lemma generation_inj_frequency f1 i f2 j :
  0 < i → 0 < j → generation f1 i = generation f2 j → f1 = f2.
Proof.
  intros Hi Hj. unfold generation.
  change ("." +:+ pretty i) with (String "." (pretty i)).
  change ("." +:+ pretty j) with (String "." (pretty j)).
  apply append_dot_inj; by apply digits_no_dot, pretty_Z_digits.
Qed.

Section RotationEffects.
Context {W D : Type} `{!Host W} `{!PosixTools W D}.
Context (cfg : BackupConfig) (dir frequency : string).
Context (root_is_dir : cfg !! "ENCRYPTED_MOUNTPOINT" = Some (PStr dir)).
Context (dir_plain : plain_path dir) (frequency_simple : simple_name frequency).

Local Abbreviation gen := (generation frequency).

(** What a successful rotation does to the directory. *)
Lemma rotation_effect table total (st st' : State W) :
  cfg !! "SNAPSHOTS" = Some (PStr table) →
  scan_snapshots frequency (Py.split "," table) 0 = Ok total →
  MakeSnapshot cfg frequency st = (Ok tt, st') →
  0 < total ∧
  (∃ snapshot, entry dir "current" (world st) = Some snapshot ∧
               entry dir (gen 1) (world st') = Some snapshot) ∧
  (∀ i, 2 ≤ i ≤ total →
        entry dir (gen i) (world st') = entry dir (gen (i - 1)) (world st)) ∧
  (∀ m, simple_name m → (∀ i, 1 ≤ i ≤ total → m ≠ gen i) →
        entry dir m (world st') = entry dir m (world st)).
Proof.
  intros Ht Hs Hrun.
  assert (∀ i, 1 ≤ i → simple_name (gen i)) as Hsimple
    by (intros; apply simple_name_generation; [done|lia]).
  assert (∀ i j, i ≠ j → gen i ≠ gen j) as Hne
    by (intros i j Hij Heq; by apply generation_inj in Heq).
  pose proof simple_name_current as Hcur.
  pose proof (root_join (W:=W) cfg dir root_is_dir) as Hjoin.
  unfold MakeSnapshot in Hrun.
  rewrite (bind_ok _ _ _ _ _ (snapshots_pairs_table _ _ _ Ht)) in Hrun.
  unfold lift at 1 in Hrun. unfold mbind at 1, M_bind at 1 in Hrun.
  rewrite Hs in Hrun.
  apply bind_ok_inv in Hrun as ([] & st0 & Hassert & Hrun).
  unfold py_assert in Hassert.
  destruct (bool_decide (total > 0)) eqn:Hpos; [|done].
  apply bool_decide_eq_true in Hpos. injection Hassert as <-.
  rewrite <-bind_assoc, (bind_ok _ _ _ _ _ (Hjoin _ _ (Hsimple total ltac:(lia))))
    in Hrun.
  apply bind_ok_inv in Hrun as ([] & st1 & Hrm & Hrun).
  apply Shell_ok_inv in Hrm as (proc1 & Hp1 & Hrc1 & _).
  pose proof (rm_rf_done dir (gen total) (world st) dir_plain
                (Hsimple total ltac:(lia))) as Hlaw.
  rewrite Hp1 in Hlaw. destruct (Hlaw Hrc1) as (R1 & R2). clear Hlaw.
  apply bind_ok_inv in Hrun as ([] & st2 & Hloop & Hrun).
  destruct (shift_loop_spec cfg dir frequency root_is_dir dir_plain
              frequency_simple (Z.to_nat (total - 1)) total st1 st2)
    as (L1 & L2 & L3 & _); [lia|done|done|].
  change (frequency +:+ ".1") with (gen 1) in Hrun.
  rewrite <-bind_assoc, (bind_ok _ _ _ _ _ (Hjoin _ _ Hcur)) in Hrun.
  rewrite <-bind_assoc, (bind_ok _ _ _ _ _ (Hjoin _ _ (Hsimple 1 ltac:(lia))))
    in Hrun.
  apply Shell_ok_inv in Hrun as (proc3 & Hp3 & Hrc3 & _).
  pose proof (cp_al_done dir "current" (gen 1) (world st2) dir_plain Hcur
                (Hsimple 1 ltac:(lia))) as Hlaw.
  rewrite Hp3 in Hlaw. destruct (Hlaw Hrc3 L2) as (C1 & C2 & C3). clear Hlaw.
  split_and!.
  - lia.
  - destruct C1 as [snapshot Hsnap]. exists snapshot. split; [|by rewrite C2].
    rewrite <-Hsnap, L3, R2; try done.
    + intros Heq. by apply (generation_not_current frequency total).
    + intros i _ Heq. by apply (generation_not_current frequency i).
  - intros i Hi. rewrite C3, L1, R2; try done; try lia.
    + apply Hsimple; lia.
    + apply Hne; lia.
    + apply Hsimple; lia.
    + apply Hne; lia.
  - intros m Hm Hfresh. rewrite C3, L3, R2; try done.
    + apply Hfresh; lia.
    + apply Hfresh; lia.
Qed.

(** X13.  Let the mount point be a plain path, the frequency a plain file
    name, and the host one that honours the contract of [rm -rf], [mv] and
    [cp -al].  After two successful rotations in a row the two newest
    generations both hold what [current] held (it is never changed by a
    rotation), and every older generation within the depth holds what stood
    two places before it. *)
Theorem two_rotations table total (st st1 st2 : State W) :
  cfg !! "SNAPSHOTS" = Some (PStr table) →
  scan_snapshots frequency (Py.split "," table) 0 = Ok total →
  2 ≤ total →
  MakeSnapshot cfg frequency st = (Ok tt, st1) →
  MakeSnapshot cfg frequency st1 = (Ok tt, st2) →
  ∃ snapshot,
    entry dir "current" (world st) = Some snapshot ∧
    entry dir "current" (world st2) = Some snapshot ∧
    entry dir (gen 1) (world st2) = Some snapshot ∧
    entry dir (gen 2) (world st2) = Some snapshot ∧
    ∀ i, 3 ≤ i ≤ total →
         entry dir (gen i) (world st2) = entry dir (gen (i - 2)) (world st).
Proof.
  intros Ht Hs Htwo Hrun1 Hrun2.
  destruct (rotation_effect _ _ _ _ Ht Hs Hrun1)
    as (_ & (snapshot & Hcur & Hone) & Hshift1 & Hkeep1).
  destruct (rotation_effect _ _ _ _ Ht Hs Hrun2)
    as (_ & (snapshot' & Hcur' & Hone') & Hshift2 & Hkeep2).
  assert (∀ (w : State W) (w' : State W),
            (∀ m, simple_name m → (∀ i, 1 ≤ i ≤ total → m ≠ gen i) →
                  entry dir m (world w') = entry dir m (world w)) →
            entry dir "current" (world w') = entry dir "current" (world w))
    as Hsame.
  { intros w w' Hkeep. apply Hkeep; [apply simple_name_current|].
    intros i _ Heq. by apply (generation_not_current frequency i). }
  assert (snapshot' = snapshot) as ->.
  { rewrite (Hsame _ _ Hkeep1), Hcur in Hcur'. by injection Hcur'. }
  exists snapshot. split_and!; try done.
  - by rewrite (Hsame _ _ Hkeep2), (Hsame _ _ Hkeep1).
  - rewrite (Hshift2 2) by lia. done.
  - intros i Hi. rewrite (Hshift2 i), (Hshift1 (i - 1)) by lia.
    f_equal. f_equal. lia.
Qed.

(** X14.  Let the mount point be a plain path, the frequency rotated and
    the other frequency plain file names, and the host one that honours the
    contract of [rm -rf], [mv] and [cp -al].  A successful rotation of the one
    frequency leaves the generations of the other, and [current], as they
    were. *)
Theorem rotation_leaves_other_frequencies table total (st st' : State W)
    other j :
  cfg !! "SNAPSHOTS" = Some (PStr table) →
  scan_snapshots frequency (Py.split "," table) 0 = Ok total →
  MakeSnapshot cfg frequency st = (Ok tt, st') →
  simple_name other → other ≠ frequency → 0 < j →
  entry dir (generation other j) (world st')
  = entry dir (generation other j) (world st) ∧
  entry dir "current" (world st') = entry dir "current" (world st).
Proof.
  intros Ht Hs Hrun Hother Hne Hj.
  destruct (rotation_effect _ _ _ _ Ht Hs Hrun) as (_ & _ & _ & Hkeep).
  split.
  - apply Hkeep; [by apply simple_name_generation|].
    intros i Hi Heq. apply generation_inj_frequency in Heq; [done|lia..].
  - apply Hkeep; [apply simple_name_current|].
    intros i _ Heq. by apply (generation_not_current frequency i).
Qed.

End RotationEffects.

Lemma two_rotations_witness :
  let st := Sim.start (Example.host Example.all_fine) in
  let st1 := (MakeSnapshot Example.cfg "daily" st).2 in
  let st2 := (MakeSnapshot Example.cfg "daily" st1).2 in
  MakeSnapshot Example.cfg "daily" st = (Ok tt, st1) ∧
  MakeSnapshot Example.cfg "daily" st1 = (Ok tt, st2) ∧
  entry "/enc" "daily.1" (world st2) = Some (Sim.Dir "today") ∧
  entry "/enc" "daily.2" (world st2) = Some (Sim.Dir "today") ∧
  entry "/enc" "daily.3" (world st2) = Some (Sim.Dir "monday").
Proof.
  intros st st1 st2.
  assert (MakeSnapshot Example.cfg "daily" st = (Ok tt, st1)) as Hrun1
    by (vm_compute; reflexivity).
  assert (MakeSnapshot Example.cfg "daily" st1 = (Ok tt, st2)) as Hrun2
    by (vm_compute; reflexivity).
  assert (Example.cfg !! "ENCRYPTED_MOUNTPOINT" = Some (PStr "/enc")) as Hroot
    by (vm_compute; reflexivity).
  assert (Example.cfg !! "SNAPSHOTS" = Some (PStr "hourly=2,daily=3")) as Htable
    by (vm_compute; reflexivity).
  assert (scan_snapshots "daily" (Py.split "," "hourly=2,daily=3") 0 = Ok 3)
    as Hscan by (vm_compute; reflexivity).
  assert (plain_path "/enc") as Hdir by (split_and!; [discriminate|reflexivity..]).
  assert (simple_name "daily") as Hname by (split; [discriminate|reflexivity]).
  destruct (two_rotations Example.cfg "/enc" "daily" Hroot Hdir Hname
              "hourly=2,daily=3" 3 st st1 st2 Htable Hscan ltac:(lia) Hrun1 Hrun2)
    as (snapshot & Hcur & _ & Hone & Htwo & Hold).
  assert (snapshot = Sim.Dir "today") as ->.
  { assert (entry "/enc" "current" (world st) = Some (Sim.Dir "today")) as Hc
      by reflexivity.
    rewrite Hc in Hcur. by injection Hcur. }
  split_and!; [exact Hrun1|exact Hrun2|exact Hone|exact Htwo|].
  etrans; [exact (Hold 3 ltac:(lia))|reflexivity].
Defined.

Lemma rotation_leaves_other_frequencies_witness :
  let w := Sim.MkWorld
             (<["/enc/hourly.1" := Sim.Dir "noon"]>
                (Sim.nodes (Example.host Example.all_fine)))
             Example.all_fine ∅ in
  let st' := (MakeSnapshot Example.cfg "daily" (Sim.start w)).2 in
  MakeSnapshot Example.cfg "daily" (Sim.start w) = (Ok tt, st') ∧
  entry "/enc" "hourly.1" (world st') = Some (Sim.Dir "noon").
Proof.
  intros w st'.
  assert (MakeSnapshot Example.cfg "daily" (Sim.start w) = (Ok tt, st')) as Hrun
    by (vm_compute; reflexivity).
  assert (Example.cfg !! "ENCRYPTED_MOUNTPOINT" = Some (PStr "/enc")) as Hroot
    by (vm_compute; reflexivity).
  assert (Example.cfg !! "SNAPSHOTS" = Some (PStr "hourly=2,daily=3")) as Htable
    by (vm_compute; reflexivity).
  assert (scan_snapshots "daily" (Py.split "," "hourly=2,daily=3") 0 = Ok 3)
    as Hscan by (vm_compute; reflexivity).
  assert (plain_path "/enc") as Hdir by (split_and!; [discriminate|reflexivity..]).
  assert (simple_name "daily") as Hname by (split; [discriminate|reflexivity]).
  assert (simple_name "hourly") as Hother by (split; [discriminate|reflexivity]).
  split; [exact Hrun|].
  etrans;
    [exact (proj1 (rotation_leaves_other_frequencies Example.cfg "/enc" "daily"
                     Hroot Hdir Hname "hourly=2,daily=3" 3 (Sim.start w) st'
                     "hourly" 1 Htable Hscan Hrun Hother ltac:(discriminate)
                     ltac:(lia)))|].
  reflexivity.
Defined.

(** ** The log of a run *)

Section Log.
Context {W : Type} `{!Host W}.
Implicit Types (cfg : BackupConfig) (st : State W).

Lemma emits_bind P {A B} (m : M W A) (f : A → M W B) :
  emits P m → (∀ a, emits P (f a)) → emits P (m ≫= f).
Proof.
  intros Hm Hf st. unfold mbind, M_bind. destruct (Hm st) as (ev1 & H1 & HP1).
  destruct (m st) as [[a|e] st1]; simpl in *; [|eauto].
  destruct (Hf a st1) as (ev2 & H2 & HP2). exists (ev1 ++ ev2).
  split; [by rewrite H2, H1, <-app_assoc|by apply Forall_app].
Qed.

Lemma emits_pure P {A} (r : Res A) : emits (W:=W) P (λ st, (r, st)).
Proof. intros st. exists []. by rewrite app_nil_r. Qed.

Lemma emits_getattr P cfg name : emits (W:=W) P (getattr cfg name).
Proof. unfold getattr. destruct (cfg !! name); apply emits_pure. Qed.

Lemma emits_os_path_join P a b : emits (W:=W) P (os_path_join a b).
Proof.
  unfold os_path_join. destruct (Py.startswith "/" b); [apply emits_pure|].
  destruct a; apply emits_pure.
Qed.

Lemma emits_Shell cmd : emits (W:=W) inner_event (Shell cmd).
Proof.
  intros st. exists [Spawn cmd]. unfold Shell.
  destruct (popen cmd (world st)) as [proc w].
  destruct (decide _); (split; [done|]); apply Forall_singleton; left; eauto.
Qed.

Lemma emits_for_each P {A} (l : list A) (body : A → M W unit) :
  (∀ x, emits P (body x)) → emits P (for_each l body).
Proof.
  intros Hb. induction l as [|x l IH]; simpl; [apply emits_pure|].
  apply emits_bind; [apply Hb|done].
Qed.

Lemma emits_try_except P {A} (body : M W A) handler :
  emits P body → (∀ e h, handler e = Some h → emits P h) →
  emits P (try_except body handler).
Proof.
  intros Hb Hh st. unfold try_except. destruct (Hb st) as (ev1 & H1 & HP1).
  destruct (body st) as [[a|e] st1]; simpl in *; [eauto|].
  destruct (handler e) as [h|] eqn:He; [|eauto].
  destruct (Hh e h He st1) as (ev2 & H2 & HP2). exists (ev1 ++ ev2).
  split; [by rewrite H2, H1, <-app_assoc|by apply Forall_app].
Qed.

Ltac emits_steps :=
  repeat first
    [ apply emits_getattr | apply emits_os_path_join | apply emits_Shell
    | apply emits_pure
    | apply emits_bind; [|intros ?] ].

Lemma emits_RunBackup cfg : emits inner_event (RunBackup cfg).
Proof.
  unfold RunBackup. apply emits_bind; [|intros _; apply emits_bind; [|intros _;
    apply emits_bind; [|intros _]]].
  - unfold premount_step. apply emits_try_except.
    + destruct (cfg !! "PRE_MOUNT"); [apply emits_Shell|apply emits_pure].
    + intros e h He. destruct e; try done. injection He as <-.
      destruct (decide _); [|apply emits_pure].
      intros st. exists [LogRecord ERROR "Pre Mount Failed"].
      split; [done|]. apply Forall_singleton. by right.
  - unfold encfs_step. emits_steps.
  - unfold rsync_step. apply emits_bind; [apply emits_getattr|intros v].
    apply emits_for_each. intros x. unfold rsync_one. emits_steps.
  - unfold unmount_step. destruct (should_unmount cfg); emits_steps.
Qed.

Lemma emits_MakeSnapshot cfg frequency :
  emits inner_event (MakeSnapshot cfg frequency).
Proof.
  unfold MakeSnapshot. apply emits_bind; [|intros pairs].
  { unfold snapshots_pairs. apply emits_bind; [apply emits_getattr|].
    intros [?|?]; apply emits_pure. }
  apply emits_bind; [apply emits_pure|intros total].
  apply emits_bind; [|intros _].
  { unfold py_assert. destruct (bool_decide _); [apply emits_pure|].
    destruct (name ← frequency_type; Ok _); apply emits_pure. }
  apply emits_bind; [apply emits_getattr|intros root].
  apply emits_bind; [apply emits_os_path_join|intros path].
  apply emits_bind; [apply emits_Shell|intros _].
  apply emits_bind; [|intros _; emits_steps].
  apply emits_for_each. intros ii. unfold shift_one.
  apply emits_bind; [apply emits_getattr|intros root1].
  apply emits_bind; [apply emits_os_path_join|intros src].
  apply emits_bind; [apply emits_getattr|intros root2].
  apply emits_bind; [apply emits_os_path_join|intros dst].
  apply emits_bind; [|intros present].
  { intros st. exists []. by rewrite app_nil_r. }
  destruct present; [apply emits_Shell|apply emits_pure].
Qed.

(** One logged phase: the labels around what the body wrote, the exception
    record before the closing label if the body raised, and the outcome of
    the body passed on. *)
Lemma logged_journal start finish (body : M W unit) st r st' :
  emits inner_event body →
  logged start finish body st = (r, st') →
  ∃ events,
    Forall inner_event events ∧
    journal st'
    = journal st ++ LogRecord INFO start :: events
      ++ match r with
         | Ok _ => []
         | Raise _ => [LogRecord ERROR "Unhandled exception"]
         end
      ++ [LogRecord INFO finish].
Proof.
  intros Hbody. unfold logged, try_finally, try_except, logging_info,
    logging_exception, emit, raise, mbind, M_bind.
  simpl.
  destruct (Hbody (MkState (world st) (journal st ++ [LogRecord INFO start])))
    as (events & Hj & HP).
  destruct (body _) as [[[]|e] st1]; simpl in *; intros [= <- <-]; simpl;
    exists events; (split; [done|]); rewrite Hj, <-!app_assoc; done.
Qed.

Lemma run_phase_journal cfg ph st r st' :
  run_phase cfg ph st = (r, st') →
  ∃ events,
    Forall inner_event events ∧
    journal st'
    = journal st ++ LogRecord INFO (phase_labels ph).1 :: events
      ++ match r with
         | Ok _ => []
         | Raise _ => [LogRecord ERROR "Unhandled exception"]
         end
      ++ [LogRecord INFO (phase_labels ph).2].
Proof.
  destruct ph as [|frequency]; simpl; apply logged_journal.
  - apply emits_RunBackup.
  - apply emits_MakeSnapshot.
Qed.

Lemma run_plan_journal cfg phases st r st' :
  run_plan cfg phases st = (r, st') →
  ∃ events, journal st' = journal st ++ events ∧ phase_log phases r events.
Proof.
  revert st; induction phases as [|ph phases IH]; intros st; simpl.
  - intros [= <- <-]. exists []. rewrite app_nil_r. split; [done|constructor].
  - destruct (run_phase cfg ph st) as [[[]|e] st1] eqn:Hph.
    + intros Hrest. destruct (run_phase_journal _ _ _ _ _ Hph) as (body & HP & Hj).
      destruct (IH _ Hrest) as (events & Hj' & Hlog).
      exists (LogRecord INFO (phase_labels ph).1
              :: body ++ LogRecord INFO (phase_labels ph).2 :: events).
      split.
      { rewrite Hj', Hj. simpl. rewrite <-!app_assoc. simpl.
        by rewrite <-?app_assoc. }
      destruct r as [[]|e]; simpl in *.
      * by constructor.
      * destruct Hlog as (before & ph' & later & closed & body' & -> & Hc & HP' & ->).
        exists (ph :: before), ph', later,
          (LogRecord INFO (phase_labels ph).1
           :: body ++ LogRecord INFO (phase_labels ph).2 :: closed), body'.
        split_and!; try done; [by constructor|].
        simpl. rewrite <-?app_assoc. simpl. by rewrite <-?app_assoc.
    + intros [= <- <-]. destruct (run_phase_journal _ _ _ _ _ Hph) as (body & HP & Hj).
      eexists. split; [exact Hj|]. simpl.
      exists [], ph, phases, [], body. split_and!; try done. constructor.
Qed.

Lemma dispatch_run_plan cfg args st :
  dispatch cfg args st = run_plan cfg (plan args) st.
Proof.
  unfold dispatch, plan. rewrite run_plan_app.
  unfold mbind, M_bind. destruct (bool_decide _); simpl.
  - destruct (backup_phase cfg st) as [[[]|e] st']; [|done].
    apply rotations_in_order.
  - apply rotations_in_order.
Qed.

(** X15.  Whatever the arguments, the configuration and the host, the
    journal of the phases is a sequence of log spans in the order of the
    plan: every command lies between the start and the end record of its
    phase, every span that is opened is closed, and if the run raises, the
    span of the failing phase is the last one and carries the exception
    record before its end record. *)
Theorem dispatch_journal cfg args st r st' :
  dispatch cfg args st = (r, st') →
  ∃ events,
    journal st' = journal st ++ events ∧ phase_log (plan args) r events.
Proof. rewrite dispatch_run_plan. apply run_plan_journal. Qed.

End Log.

Lemma dispatch_journal_witness :
  let st := Sim.start (Example.host Example.all_fine) in
  let r := dispatch Example.cfg ["daily"; "snapshot"; "weekly"] st in
  r.1 = Raise (NameError "frequency_type") ∧
  ∃ events,
    journal r.2 = journal st ++ events ∧
    phase_log (plan ["daily"; "snapshot"; "weekly"]) r.1 events.
Proof.
  intros st r. split; [vm_compute; reflexivity|].
  exact (dispatch_journal Example.cfg ["daily"; "snapshot"; "weekly"] st r.1 r.2
           (surjective_pairing r)).
Defined.

Section Main.
Context {W : Type} `{!Host W}.
Implicit Types (cfg : BackupConfig) (st : State W).

Lemma BackupConfig_init_load (filename : string) st content :
  path_exists filename (world st) = true →
  read_file filename (world st) = Some content →
  BackupConfig_init filename st = (load content, st).
Proof.
  intros He Hr. unfold BackupConfig_init, os_path_exists, open_text, lift.
  unfold mbind, M_bind. rewrite He. simpl. by rewrite Hr.
Qed.

Lemma main_with_HOME argv st home :
  getenv "HOME" (world st) = Some home →
  main argv st
  = (cfg ← BackupConfig_init (Py.path_join home ".backuprc");
     logging_basicConfig cfg ;; dispatch cfg (tail argv)) st.
Proof.
  intros Hh. unfold main, BACKUP_RC. unfold mbind at 1, M_bind at 1.
  by rewrite Hh.
Qed.

(** The script from the opening of the log file on, when the configuration
    has been loaded. *)
Lemma main_after_setup argv st home content cfg log_file :
  getenv "HOME" (world st) = Some home →
  path_exists (Py.path_join home ".backuprc") (world st) = true →
  read_file (Py.path_join home ".backuprc") (world st) = Some content →
  load content = Ok cfg →
  cfg !! "LOG_FILE" = Some (PStr log_file) →
  main argv st = (FileHandler log_file ;; dispatch cfg (tail argv)) st.
Proof.
  intros Hh He Hr Hl Hlog. rewrite (main_with_HOME _ _ _ Hh).
  pose proof (BackupConfig_init_load _ _ _ He Hr) as Hinit. rewrite Hl in Hinit.
  rewrite (bind_ok _ _ _ _ _ Hinit). unfold logging_basicConfig.
  rewrite bind_assoc. read_attr Hlog. done.
Qed.

(** X16.  Whatever the arguments, even none, the script stops before it
    writes or runs anything when its setup fails: without [HOME] it raises
    the key error, a configuration that fails to load passes its error on,
    and a configuration without [LOG_FILE] ends in the attribute error. *)
Theorem main_needs_setup argv st :
  (getenv "HOME" (world st) = None →
   main argv st = (Raise (KeyError "HOME"), st)) ∧
  (∀ home content,
     getenv "HOME" (world st) = Some home →
     path_exists (Py.path_join home ".backuprc") (world st) = true →
     read_file (Py.path_join home ".backuprc") (world st) = Some content →
     (∀ e, load content = Raise e → main argv st = (Raise e, st)) ∧
     (∀ cfg, load content = Ok cfg → cfg !! "LOG_FILE" = None →
             main argv st = (Raise (AttributeError "LOG_FILE"), st))).
Proof.
  split.
  - intros Hh. unfold main, BACKUP_RC. unfold mbind at 1, M_bind at 1.
    by rewrite Hh.
  - intros home content Hh He Hr. rewrite (main_with_HOME _ _ _ Hh).
    pose proof (BackupConfig_init_load _ _ _ He Hr) as Hinit. split.
    + intros e Hl. rewrite Hl in Hinit. by apply bind_raise.
    + intros cfg Hl Hlog. rewrite Hl in Hinit.
      rewrite (bind_ok _ _ _ _ _ Hinit). apply bind_raise.
      unfold logging_basicConfig.
      by rewrite (bind_raise _ _ _ _ _ (getattr_none _ _ _ Hlog)).
Qed.

(** X17.  With the configuration loaded and [LOG_FILE] configured, the
    script first opens the log file.  If that file cannot be opened the
    script ends there with the [IOError], before any log record and any
    command.  If it can, the journal of the whole script is the opening of
    the log file followed by the log spans of the planned phases; called
    without arguments, the script opens the log, does nothing else and
    returns normally. *)
Theorem main_journal argv st home content cfg log_file :
  getenv "HOME" (world st) = Some home →
  path_exists (Py.path_join home ".backuprc") (world st) = true →
  read_file (Py.path_join home ".backuprc") (world st) = Some content →
  load content = Ok cfg →
  cfg !! "LOG_FILE" = Some (PStr log_file) →
  (open_append log_file (world st) = None →
   main argv st = (Raise (IOError log_file), st)) ∧
  (∀ w, open_append log_file (world st) = Some w →
     (∃ events,
        journal (main argv st).2 = journal st ++ LogOpen log_file :: events ∧
        phase_log (plan (tail argv)) (main argv st).1 events) ∧
     (tail argv = [] →
      main argv st = (Ok tt, MkState w (journal st ++ [LogOpen log_file])))).
Proof.
  intros Hh He Hr Hl Hlog.
  rewrite (main_after_setup argv st home content cfg log_file Hh He Hr Hl Hlog).
  split.
  - intros Ho. apply bind_raise. unfold FileHandler. by rewrite Ho.
  - intros w Ho.
    rewrite (bind_ok (FileHandler log_file) _ st tt
               (MkState w (journal st ++ [LogOpen log_file])))
      by (unfold FileHandler; by rewrite Ho).
    split.
    + destruct (dispatch cfg (tail argv) _) as [r st'] eqn:Hd.
      rewrite dispatch_run_plan in Hd.
      apply run_plan_journal in Hd as (events & Hj & Hlog').
      exists events. simpl in *. rewrite Hj, <-app_assoc. done.
    + intros ->. done.
Qed.

End Main.

Lemma main_needs_setup_witness :
  let w := Sim.MkWorld (Sim.nodes (Example.host Example.all_fine))
             Example.all_fine ∅ in
  getenv "HOME" w = None ∧
  main ["backup.py"; "snapshot"] (Sim.start w)
  = (Raise (KeyError "HOME"), Sim.start w).
Proof.
  intros w. split; [reflexivity|].
  apply (proj1 (main_needs_setup ["backup.py"; "snapshot"] (Sim.start w))).
  reflexivity.
Defined.

Lemma main_journal_witness :
  let st := Sim.start (Example.host Example.all_fine) in
  let log := "/var/log/backup.log" in
  let opened :=
    Sim.with_nodes (world st)
      (<[log := Sim.File EmptyString]> (Sim.nodes (world st))) in
  let unwritable : BackupConfig := <["LOG_FILE" := PStr "/enc/current"]> Example.cfg in
  load (text Example.rc_lines) = Ok Example.cfg ∧
  open_append log (world st) = Some opened ∧
  main ["backup.py"] st = (Ok tt, MkState opened [LogOpen log]) ∧
  load (text (Example.rc_lines ++ ["LOG_FILE /enc/current"])) = Ok unwritable ∧
  open_append "/enc/current" (world st) = None ∧
  main ["backup.py"; "snapshot"]
    (Sim.start (Sim.with_nodes (world st)
       (<["/home/greg/.backuprc" :=
            Sim.File (text (Example.rc_lines ++ ["LOG_FILE /enc/current"]))]>
          (Sim.nodes (world st)))))
  = (Raise (IOError "/enc/current"),
     Sim.start (Sim.with_nodes (world st)
       (<["/home/greg/.backuprc" :=
            Sim.File (text (Example.rc_lines ++ ["LOG_FILE /enc/current"]))]>
          (Sim.nodes (world st))))).
Proof.
  intros st log opened unwritable.
  assert (load (text Example.rc_lines) = Ok Example.cfg) as Hl
    by (vm_compute; reflexivity).
  assert (open_append log (world st) = Some opened) as Ho by reflexivity.
  assert (load (text (Example.rc_lines ++ ["LOG_FILE /enc/current"]))
          = Ok unwritable) as Hl' by (vm_compute; reflexivity).
  split_and!; [exact Hl|exact Ho| |exact Hl'|reflexivity|].
  - refine (proj2 (proj2 (main_journal ["backup.py"] st "/home/greg"
                            (text Example.rc_lines) Example.cfg log _ _ _ Hl _)
                     opened Ho) eq_refl);
      vm_compute; reflexivity.
  - refine (proj1 (main_journal ["backup.py"; "snapshot"] _ "/home/greg"
                     (text (Example.rc_lines ++ ["LOG_FILE /enc/current"]))
                     unwritable "/enc/current" _ _ _ Hl' _) _);
      vm_compute; reflexivity.
Defined.

(** ** How a ShellError prints *)

Lemma append_assoc (a b c : string) : (a +:+ b) +:+ c = a +:+ b +:+ c.
Proof. induction a as [|x a IH]; [done|]. by rewrite !append_cons, IH. Qed.

Lemma append_nil_r (a : string) : a +:+ EmptyString = a.
Proof. induction a as [|x a IH]; [done|]. by rewrite append_cons, IH. Qed.

Lemma PrintWithPrefix_loop_copies to_print prefix_len lines out :
  ShellErrorText.PrintWithPrefix_loop to_print prefix_len lines out
  = out +:+ ShellErrorText.copies (length lines)
              (ShellErrorText.spaces prefix_len +:+ to_print).
Proof.
  revert out; induction lines as [|line lines IH]; intros out; simpl.
  - by rewrite append_nil_r.
  - rewrite IH. unfold ShellErrorText.copies. simpl.
    by rewrite !append_assoc.
Qed.

(** A text without a line break is one line, and so is such a text followed
    by a line feed. *)
Lemma splitlines_one_line s :
  s ≠ EmptyString →
  Py.contains Py.LF s = false → Py.contains ShellErrorText.CR s = false →
  ShellErrorText.splitlines s = [s].
Proof.
  induction s as [|c s IH]; [done|]. intros _. simpl.
  destruct (decide (c = Py.LF)); [done|].
  destruct (decide (c = ShellErrorText.CR)); [done|]. intros Hlf Hcr.
  destruct s as [|c' s']; [done|]. by rewrite IH.
Qed.

Lemma splitlines_terminated s :
  Py.contains Py.LF s = false → Py.contains ShellErrorText.CR s = false →
  ShellErrorText.splitlines (s +:+ String Py.LF EmptyString) = [s].
Proof.
  induction s as [|c s IH]; [done|]. rewrite append_cons. simpl.
  destruct (decide (c = Py.LF)); [done|].
  destruct (decide (c = ShellErrorText.CR)); [done|]. intros Hlf Hcr.
  by rewrite IH.
Qed.

Lemma PrintWithPrefix_all to_print prefix_len :
  ShellErrorText.PrintWithPrefix to_print prefix_len
  = ShellErrorText.copies (length (ShellErrorText.splitlines to_print))
      (ShellErrorText.spaces prefix_len +:+ to_print).
Proof.
  unfold ShellErrorText.PrintWithPrefix.
  by rewrite PrintWithPrefix_loop_copies.
Qed.

Lemma PrintWithPrefix_one_line to_print prefix_len line :
  Py.contains Py.LF line = false →
  Py.contains ShellErrorText.CR line = false →
  (to_print = line ∧ line ≠ EmptyString) ∨
  to_print = line +:+ String Py.LF EmptyString →
  ShellErrorText.PrintWithPrefix to_print prefix_len
  = ShellErrorText.spaces prefix_len +:+ to_print.
Proof.
  intros Hlf Hcr Hone. rewrite PrintWithPrefix_all.
  assert (ShellErrorText.splitlines to_print = [line]) as ->.
  { destruct Hone as [[-> Hne]| ->].
    - by apply splitlines_one_line.
    - by apply splitlines_terminated. }
  unfold ShellErrorText.copies. simpl. by rewrite append_nil_r.
Qed.

(** X18.  [PrintWithPrefix] writes the whole text behind the prefix once for
    every line the text has: an empty text gives nothing, a text of one line
    comes out indented, with or without its final line feed, and a text of
    several lines comes out in full as many times as it has lines. *)
Theorem PrintWithPrefix_copies to_print prefix_len :
  ShellErrorText.PrintWithPrefix to_print prefix_len
  = ShellErrorText.copies (length (ShellErrorText.splitlines to_print))
      (ShellErrorText.spaces prefix_len +:+ to_print) ∧
  (to_print = EmptyString →
   ShellErrorText.PrintWithPrefix to_print prefix_len = EmptyString) ∧
  (∀ line,
     Py.contains Py.LF line = false →
     Py.contains ShellErrorText.CR line = false →
     (to_print = line ∧ line ≠ EmptyString) ∨
     to_print = line +:+ String Py.LF EmptyString →
     ShellErrorText.PrintWithPrefix to_print prefix_len
     = ShellErrorText.spaces prefix_len +:+ to_print).
Proof.
  split_and!.
  - apply PrintWithPrefix_all.
  - by intros ->.
  - apply PrintWithPrefix_one_line.
Qed.

Lemma PrintWithPrefix_copies_witness :
  ShellErrorText.PrintWithPrefix "No such device" 4 = "    No such device" ∧
  ShellErrorText.PrintWithPrefix
    ("one" +:+ String Py.LF ("two" +:+ String Py.LF EmptyString)) 1
  = ShellErrorText.copies 2
      (" " +:+ "one" +:+ String Py.LF ("two" +:+ String Py.LF EmptyString)).
Proof.
  split.
  - apply (proj2 (proj2 (PrintWithPrefix_copies "No such device" 4))
             "No such device"); [reflexivity..|].
    left. split; [reflexivity|discriminate].
  - exact (proj1 (PrintWithPrefix_copies
                    ("one" +:+ String Py.LF ("two" +:+ String Py.LF EmptyString))
                    1)).
Defined.

Section ErrorText.
Context {W : Type} `{!Host W}.

(** The text of a [ShellError] whose standard output is empty and whose
    standard error is one line. *)
Lemma to_str_one_error_line returncode line :
  Py.contains Py.LF line = false →
  Py.contains ShellErrorText.CR line = false →
  ShellErrorText.to_str returncode EmptyString (line +:+ String Py.LF EmptyString)
  = Ok (("Return Value: " +:+ pretty returncode +:+ String Py.LF EmptyString)
        +:+ ("  <Standard Err>" +:+ String Py.LF EmptyString)
        +:+ ("    " +:+ line +:+ String Py.LF EmptyString)
        +:+ "  </Standard Err>").
Proof.
  intros Hlf Hcr. unfold ShellErrorText.to_str. simpl.
  destruct (decide _) as [Hempty|_]; [by destruct line|].
  rewrite (PrintWithPrefix_one_line (line +:+ String Py.LF EmptyString) 4
             line Hlf Hcr) by by right.
  f_equal. by rewrite !append_assoc.
Qed.

(** X19.  The exception [Shell] raises for a failed command carries the
    command, its exit status and what it wrote.  Printing it fails with an
    attribute error whenever the command wrote anything to its standard
    output; with an empty standard output it succeeds, giving the status line
    alone if the standard error is empty too, and the status line with the
    framed, indented error line if the standard error is one line. *)
Theorem failed_command_text cmd (st st' : State W) e :
  Shell cmd st = (Raise e, st') →
  let proc := (popen cmd (world st)).1 in
  let status :=
    "Return Value: " +:+ pretty (returncode proc) +:+ String Py.LF EmptyString in
  returncode proc ≠ 0 ∧
  e = ShellError cmd None (returncode proc) (stdout proc) (stderr proc) ∧
  (stdout proc ≠ EmptyString →
   ShellErrorText.of_exn e = Some (Raise (AttributeError "read"))) ∧
  (stdout proc = EmptyString →
   (∃ printed, ShellErrorText.of_exn e = Some (Ok printed)) ∧
   (stderr proc = EmptyString → ShellErrorText.of_exn e = Some (Ok status)) ∧
   (∀ line,
      Py.contains Py.LF line = false →
      Py.contains ShellErrorText.CR line = false →
      stderr proc = line +:+ String Py.LF EmptyString →
      ShellErrorText.of_exn e
      = Some (Ok (status
                  +:+ ("  <Standard Err>" +:+ String Py.LF EmptyString)
                  +:+ ("    " +:+ line +:+ String Py.LF EmptyString)
                  +:+ "  </Standard Err>")))).
Proof.
  unfold Shell. destruct (popen cmd (world st)) as [proc w]. simpl.
  destruct (decide (returncode proc = 0)) as [|Hrc]; [done|].
  intros [= <- <-]. split_and!; [done|done| |].
  - intros Hout. simpl. unfold ShellErrorText.to_str.
    by destruct (decide (stdout proc = EmptyString)).
  - intros Hout. simpl. rewrite Hout. split_and!.
    + unfold ShellErrorText.to_str. simpl.
      destruct (decide (stderr proc = EmptyString)); eauto.
    + by intros ->.
    + intros line Hlf Hcr ->. by rewrite to_str_one_error_line.
Qed.

End ErrorText.

Lemma failed_command_text_witness :
  let w := Example.host (Example.failing "mount /dev/sdb1" 1) in
  Shell "mount /dev/sdb1" (Sim.start w)
  = (Raise (ShellError "mount /dev/sdb1" None 1 EmptyString EmptyString),
     MkState w [Spawn "mount /dev/sdb1"]) ∧
  ShellErrorText.of_exn
    (ShellError "mount /dev/sdb1" None 1 EmptyString EmptyString)
  = Some (Ok ("Return Value: 1" +:+ String Py.LF EmptyString)).
Proof.
  intros w.
  assert (Shell "mount /dev/sdb1" (Sim.start w)
          = (Raise (ShellError "mount /dev/sdb1" None 1 EmptyString EmptyString),
             MkState w [Spawn "mount /dev/sdb1"])) as Hrun
    by (vm_compute; reflexivity).
  split; [exact Hrun|].
  destruct (failed_command_text _ _ _ _ Hrun) as (_ & _ & _ & Hprint).
  exact (proj1 (proj2 (Hprint eq_refl)) eq_refl).
Defined.
